(** * densenet_inference_3d_array: the evaluation script and the pipeline it wires

    The script [examples/densenet_inference_3d_array.py] is straight-line
    glue code: it fixes a list of image files and labels, composes three
    transforms, builds a dataset, a network, an evaluator with a custom
    batch-unpacking function, attaches three handlers, builds a data loader,
    runs the evaluator and finalizes the prediction saver.

    The development has three layers:
    - the Python runtime the script relies on (sequences, exceptions, a
      store for the mutable objects, an event trace);
    - the framework calls the script makes. torch and ignite are libraries
      outside the repository; their calls are modelled after what the
      libraries do. monai is the repository itself, but of it only the
      script is among the sources: its classes are modelled from the
      specification, and each such definition says so;
    - the script itself, translated statement by statement.

    Everything is executable: the script can be run in a concrete world, and
    the properties are proved for every world. *)

From stdpp Require Import base option list strings gmap.

(** ** Python runtime: exceptions and results *)

Inductive exn : Type :=
| IndexError
| KeyError (key : string)
| TypeError
| ValueError
| FileNotFoundError (path : string)
| RuntimeError (msg : string).

(** The result of evaluating an expression that may raise. *)
Inductive outcome (A : Type) : Type :=
| Ok (a : A)
| Raise (e : exn).
Arguments Ok {A} a.
Arguments Raise {A} e.

#[global] Instance outcome_ret : MRet outcome := λ A a, Ok a.
#[global] Instance outcome_bind : MBind outcome := λ A B f m,
  match m with
  | Ok a => f a
  | Raise e => Raise e
  end.
#[global] Instance outcome_fmap : FMap outcome := λ A B f m,
  match m with
  | Ok a => Ok (f a)
  | Raise e => Raise e
  end.

Definition is_Ok {A} (m : outcome A) : Prop :=
  match m with Ok _ => True | Raise _ => False end.
Definition raises {A} (m : outcome A) : Prop :=
  match m with Ok _ => False | Raise _ => True end.

(** [seq[i]] for a non-negative literal index: IndexError past the end. *)
Definition getitem {A} (seq : list A) (i : nat) : outcome A :=
  match seq !! i with
  | Some x => Ok x
  | None => Raise IndexError
  end.

(** [d[k]] on a dict: KeyError when the key is absent. *)
Definition dict_getitem {A} (d : gmap string A) (k : string) : outcome A :=
  match d !! k with
  | Some x => Ok x
  | None => Raise (KeyError k)
  end.

(** [for x in xs: acc = f(acc, x)], stopping at the first exception. *)
Fixpoint for_each {A B} (f : B → A → outcome B) (xs : list A) (acc : B) : outcome B :=
  match xs with
  | [] => Ok acc
  | x :: xs' => acc' ← f acc x; for_each f xs' acc'
  end.

(** [[f(x) for x in xs]], stopping at the first exception. *)
Fixpoint map_outcome {A B} (f : A → outcome B) (xs : list A) : outcome (list B) :=
  match xs with
  | [] => Ok []
  | x :: xs' => y ← f x; ys ← map_outcome f xs'; Ok (y :: ys)
  end.

(** ** torch: devices *)

Inductive torch_device : Type :=
| cpu
| cuda (index : nat).

#[global] Instance torch_device_eq_dec : EqDecision torch_device.
Proof. solve_decision. Defined.

(** ** Values that flow through the pipeline

    Voxel data [V], network parameters [P] and network scores [S] are
    floating-point arrays and numbers; the script never inspects them, so
    they stay abstract and the numeric kernels are fields of [World]. *)

(** The per-file metadata the reader returns beside the voxels. *)
Record meta_data : Type := MetaData {
  filename_or_obj : string;
  spatial_shape : list nat;
}.

(** A numpy array: a shape and its voxels. *)
Record ndarray (V : Type) : Type := NdArray {
  shape : list nat;
  voxels : V;
}.
Arguments NdArray {V} shape voxels.
Arguments shape {V} _.
Arguments voxels {V} _.

(** One item of a dataset sample (a Python list of heterogeneous items). *)
Inductive item (V : Type) : Type :=
| Img (a : ndarray V)
| Label (z : Z)
| Meta (m : meta_data).
Arguments Img {V} a.
Arguments Label {V} z.
Arguments Meta {V} m.

(** A value of a collated batch or of the evaluator's output: the stacked
    images (one voxel block per sample, all of the per-sample shape), an
    integer tensor (labels, class indices), a two-dimensional tensor of
    scores (one row per sample), or the metadata of the samples. *)
Inductive value (V S : Type) : Type :=
| Tensor (sample_shape : list nat) (blocks : list V) (dev : torch_device)
| IntTensor (values : list Z) (dev : torch_device)
| ScoreTensor (rows : list (list S)) (dev : torch_device)
| MetaBatch (metas : list meta_data).
Arguments Tensor {V S} sample_shape blocks dev.
Arguments IntTensor {V S} values dev.
Arguments ScoreTensor {V S} rows dev.
Arguments MetaBatch {V S} metas.

(** What a prediction saver keeps for one sample: the entry of the tensor it
    was handed at that sample's position. *)
Inductive saved (S : Type) : Type :=
| SavedClass (z : Z)
| SavedScores (row : list S).
Arguments SavedClass {S} z.
Arguments SavedScores {S} row.

(** ** The world outside the script

    Hardware, files, and the numeric kernels of the framework. *)
Record World (V S P : Type) : Type := {
  (** number of CUDA devices torch can see *)
  cuda_device_count : nat;
  (** the NIfTI reader: shape and voxels of the file at a path *)
  nifti_files : string → option (ndarray V);
  (** [torch.load]: the objects serialized in a checkpoint file, by key *)
  checkpoint_files : string → option (gmap string P);
  (** parameters of a freshly constructed network *)
  initial_parameters : nat → nat → P;
  (** intensity rescaling of a voxel block *)
  rescale_voxels : V → V;
  (** interpolation of a voxel block from one spatial shape to another *)
  resize_voxels : list nat → list nat → V → V;
  (** score of one class for one sample under given parameters *)
  class_score : P → V → nat → S;
  (** [a > b] on scores *)
  score_gt : S → S → bool;
}.
Arguments cuda_device_count {V S P} _.
Arguments nifti_files {V S P} _ _.
Arguments checkpoint_files {V S P} _ _.
Arguments initial_parameters {V S P} _ _ _.
Arguments rescale_voxels {V S P} _ _.
Arguments resize_voxels {V S P} _ _ _ _.
Arguments class_score {V S P} _ _ _ _.
Arguments score_gt {V S P} _ _ _.

(** ** Python runtime: the store of mutable objects and the event trace *)

(** A [torch.nn.Module] object: the script creates one, the network. *)
Record nn_module (P : Type) : Type := NnModule {
  parameters : P;
  module_device : torch_device;
  training : bool;
  in_channels : nat;
  out_channels : nat;
}.
Arguments NnModule {P} _ _ _ _ _.
Arguments parameters {P} _.
Arguments module_device {P} _.
Arguments training {P} _.
Arguments in_channels {P} _.
Arguments out_channels {P} _.

(** What the run does that can be observed from outside, in order. *)
Inductive event (S P : Type) : Type :=
| ModuleMoved (ref : nat) (dev : torch_device)
| StateDictLoaded (path key : string) (ref : nat)
| BatchFetched (indices : list nat)
| ForwardPass (ref : nat) (params : P) (batch_size : nat)
| PredictionKept (saver : nat) (m : meta_data) (p : saved S)
| OutputWritten (output_dir : string) (rows : list (meta_data * saved S))
| Logged (iteration : nat).
Arguments ModuleMoved {S P} ref dev.
Arguments StateDictLoaded {S P} path key ref.
Arguments BatchFetched {S P} indices.
Arguments ForwardPass {S P} ref params batch_size.
Arguments PredictionKept {S P} saver m p.
Arguments OutputWritten {S P} output_dir rows.
Arguments Logged {S P} iteration.

(** Objects are referred to by their index in the store, so that two
    holders of a reference (the evaluator and the checkpoint loader for the
    network, the evaluator and the script for the prediction saver) see the
    same object. *)
Record Store (S P : Type) : Type := MkStore {
  modules : list (nn_module P);
  savers : list (list (meta_data * saved S));
  trace : list (event S P);
}.
Arguments MkStore {S P} _ _ _.
Arguments modules {S P} _.
Arguments savers {S P} _.
Arguments trace {S P} _.

Definition empty_store {S P} : Store S P := MkStore [] [] [].

Definition emit {S P} (e : event S P) (σ : Store S P) : Store S P :=
  MkStore (modules σ) (savers σ) (trace σ ++ [e]).

(** A statement: it runs in a store and returns or raises; the store it
    leaves holds what it did until then either way. *)
Definition Exec (S P A : Type) : Type := Store S P → outcome A * Store S P.

#[global] Instance Exec_ret {S P} : MRet (Exec S P) := λ A a σ, (Ok a, σ).
#[global] Instance Exec_bind {S P} : MBind (Exec S P) := λ A B f m σ,
  match m σ with
  | (Ok a, σ') => f a σ'
  | (Raise e, σ') => (Raise e, σ')
  end.

(** An expression without effects, used as a statement. *)
Definition liftE {S P A} (m : outcome A) : Exec S P A := λ σ, (m, σ).

Definition tell {S P} (e : event S P) : Exec S P () := λ σ, (Ok (), emit e σ).

(** [for x in xs: st = f(st, x)] with effects. *)
Fixpoint for_each_exec {S P A B} (f : B → A → Exec S P B) (xs : list A) (acc : B)
  : Exec S P B :=
  match xs with
  | [] => mret acc
  | x :: xs' => acc' ← f acc x; for_each_exec f xs' acc'
  end.

(** A small world for examples: voxel blocks are numbered, scores are
    integers, parameters are numbered. Every path holds a volume of shape
    4x5x6 whose block is numbered by the length of the path; the checkpoint
    file of the script holds the parameters 7 under the key net. *)
Definition toy_world (devices : nat) : World nat Z nat := {|
  cuda_device_count := devices;
  nifti_files := λ path, Some (NdArray [4; 5; 6] (String.length path));
  checkpoint_files := λ path,
    if decide (path = "./runs/net_checkpoint_40.pth"%string)
    then Some {[ "net"%string := 7 ]} else None;
  initial_parameters := λ _ _, 0;
  rescale_voxels := λ v, v;
  resize_voxels := λ _ _ v, v;
  class_score := λ params v class, Z.of_nat ((params + v * (class + 1)) `mod` 3);
  score_gt := λ a b, bool_decide (b < a)%Z;
|}.

(** The same world with one device and some things missing: the image files
    of the list [missing] are not there, and the checkpoint file is there
    only when [checkpoint] is set. *)
Definition toy_world_without (missing : list string) (checkpoint : bool)
  : World nat Z nat := {|
  cuda_device_count := 1;
  nifti_files := λ path,
    if decide (path ∈ missing) then None else nifti_files (toy_world 1) path;
  checkpoint_files := λ path,
    if checkpoint then checkpoint_files (toy_world 1) path else None;
  initial_parameters := initial_parameters (toy_world 1);
  rescale_voxels := rescale_voxels (toy_world 1);
  resize_voxels := resize_voxels (toy_world 1);
  class_score := class_score (toy_world 1);
  score_gt := score_gt (toy_world 1);
|}.

Section Pipeline.
Context {V S P : Type}.
Variable w : World V S P.

(** ** torch: availability, moving to a device, argmax *)

(** [torch.cuda.is_available()] *)
Definition torch_cuda_is_available : bool := bool_decide (0 < cuda_device_count w).

Definition device_available (d : torch_device) : bool :=
  match d with
  | cpu => true
  | cuda index => bool_decide (index < cuda_device_count w)
  end.

(** [tensor.to(device, non_blocking=...)]: a device that is not there raises. *)
Definition tensor_to (x : value V S) (device : torch_device) (non_blocking : bool)
  : outcome (value V S) :=
  if device_available device then
    Ok match x with
       | Tensor sh blocks _ => Tensor sh blocks device
       | IntTensor vs _ => IntTensor vs device
       | ScoreTensor rows _ => ScoreTensor rows device
       | MetaBatch ms => MetaBatch ms
       end
  else Raise (RuntimeError "device is not available").

(** ignite's [convert_tensor]: with [device=None] the input is returned as it is. *)
Definition convert_tensor (x : value V S) (device : option torch_device)
  (non_blocking : bool) : outcome (value V S) :=
  match device with
  | Some d => tensor_to x d non_blocking
  | None => Ok x
  end.

(** Index of the first maximal score of a row, scanning from position [i]
    with the best score so far [best] at [best_i]. *)
Fixpoint argmax_from (best_i : nat) (best : S) (i : nat) (row : list S) : nat :=
  match row with
  | [] => best_i
  | x :: row' =>
      if score_gt w x best then argmax_from i x (i + 1) row'
      else argmax_from best_i best (i + 1) row'
  end.

Definition argmax_row (row : list S) : outcome Z :=
  match row with
  | [] => Raise (RuntimeError "argmax over an empty dimension")
  | x :: row' => Ok (Z.of_nat (argmax_from 0 x 1 row'))
  end.

(** [t.argmax(1)]: on a two-dimensional tensor of scores, the class index of
    each row. The script reduces dimension 1 only; other dimensions and other
    tensors are outside this model and raise. *)
Definition argmax (t : value V S) (dim : nat) : outcome (value V S) :=
  match t with
  | ScoreTensor rows dev =>
      if decide (dim = 1) then
        classes ← map_outcome argmax_row rows; Ok (IntTensor classes dev)
      else Raise IndexError
  | _ => Raise IndexError
  end.

(** ** monai.transforms *)

Inductive transform : Type :=
| Rescale
| AddChannel
| Resize (output_shape : list nat).

(** Modelled from the spec: the transform implementations (monai/transforms)
    are not among the sources. Rescale changes intensities only; AddChannel
    inserts a leading channel dimension; Resize expects a channel axis first
    and replaces the spatial dimensions after it by the given ones. *)
Definition apply_transform (t : transform) (img : ndarray V) : outcome (ndarray V) :=
  match t with
  | Rescale => Ok (NdArray (shape img) (rescale_voxels w (voxels img)))
  | AddChannel => Ok (NdArray (1 :: shape img) (voxels img))
  | Resize output_shape =>
      match shape img with
      | c :: spatial =>
          if decide (length spatial = length output_shape) then
            Ok (NdArray (c :: output_shape)
                  (resize_voxels w spatial output_shape (voxels img)))
          else Raise ValueError
      | [] => Raise ValueError
      end
  end.

(** Modelled from the spec: monai.transforms.compose.Compose is not among the
    sources. The transforms are applied in list order, each on the result of
    the one before. *)
Definition Compose (transforms : list transform) (img : ndarray V) : outcome (ndarray V) :=
  for_each (λ acc t, apply_transform t acc) transforms img.

(** ** monai.data.nifti_reader *)

(** Modelled from the spec: the arguments the script gives to NiftiDataset.
    The fields [ds_labels] and [ds_transform] are the arguments [labels] and
    [transform]. *)
Record NiftiDataset : Type := MkNiftiDataset {
  image_files : list string;
  ds_labels : list Z;
  ds_transform : ndarray V → outcome (ndarray V);
  image_only : bool;
}.

(** Modelled from the spec: the NIfTI reader is not among the sources.
    Reading a file gives its voxels and its metadata; the metadata names the
    file and records the shape that was read. *)
Definition load_nifti (path : string) : outcome (ndarray V * meta_data) :=
  match nifti_files w path with
  | Some img => Ok (img, MetaData path (shape img))
  | None => Raise (FileNotFoundError path)
  end.

(** Modelled from the spec: NiftiDataset (monai/data/nifti_reader.py) is not
    among the sources. Sample [index] is built from the file and the label at
    that position; the image goes through the transform; the metadata is the
    third item and is present when the dataset was built with
    [image_only=False]. *)
Definition NiftiDataset_getitem (ds : NiftiDataset) (index : nat) : outcome (list (item V)) :=
  path ← getitem (image_files ds) index;
  '(img, meta) ← load_nifti path;
  label ← getitem (ds_labels ds) index;
  img ← ds_transform ds img;
  Ok (if image_only ds then [Img img; Label label]
      else [Img img; Label label; Meta meta]).

(** Modelled from the spec: the dataset has one sample per image file. *)
Definition NiftiDataset_len (ds : NiftiDataset) : nat := length (image_files ds).

(** ** torch.utils.data: collation and the data loader *)

(** One position of the samples of a batch, collated by kind: arrays are
    stacked (and must agree in shape), labels become an integer tensor,
    metadata is gathered. *)
Definition collate_column (column : list (item V)) : outcome (value V S) :=
  match column with
  | [] => Raise IndexError
  | Img a :: _ =>
      blocks ← map_outcome (λ x,
        match x with
        | Img b => if decide (shape b = shape a) then Ok (voxels b)
                   else Raise (RuntimeError "stack expects each tensor to be equal size")
        | _ => Raise TypeError
        end) column;
      Ok (Tensor (shape a) blocks cpu)
  | Label _ :: _ =>
      values ← map_outcome (λ x,
        match x with Label z => Ok z | _ => Raise TypeError end) column;
      Ok (IntTensor values cpu)
  | Meta _ :: _ =>
      metas ← map_outcome (λ x,
        match x with Meta m => Ok m | _ => Raise TypeError end) column;
      Ok (MetaBatch metas)
  end.

(** [default_collate] on samples that are sequences: the samples must have
    one length, and the batch has one collated value per position. *)
Definition default_collate (samples : list (list (item V))) : outcome (list (value V S)) :=
  match samples with
  | [] => Raise IndexError
  | first :: _ =>
      if forallb (λ s, bool_decide (length s = length first)) samples then
        map_outcome (λ j, column ← map_outcome (λ s, getitem s j) samples;
                          collate_column column)
                    (seq 0 (length first))
      else Raise (RuntimeError "each element in list of batch should be of equal size")
  end.

Record DataLoader : Type := MkDataLoader {
  dataset : NiftiDataset;
  batch_size : nat;
  num_workers : nat;
  pin_memory : bool;
}.

(** The sample indices of each batch, in order: consecutive runs of
    [batch_size] indices, the last one shorter when the dataset size is not a
    multiple (no shuffling, nothing dropped). *)
Definition batch_indices (n batch_size : nat) : list (list nat) :=
  (λ j, seq (j * batch_size) (batch_size `min` (n - j * batch_size)))
    <$> seq 0 ((n + batch_size - 1) `div` batch_size).

Definition DataLoader_iter (loader : DataLoader) : list (list nat) :=
  batch_indices (NiftiDataset_len (dataset loader)) (batch_size loader).

(** Producing the batch of the given indices. The workers and the pinned
    staging change where and when this happens, not what it returns. *)
Definition fetch (loader : DataLoader) (indices : list nat) : outcome (list (value V S)) :=
  samples ← map_outcome (NiftiDataset_getitem (dataset loader)) indices;
  default_collate samples.

(** ** torch.nn: module objects in the store *)

Definition new_module (m : nn_module P) : Exec S P nat := λ σ,
  (Ok (length (modules σ)), MkStore (modules σ ++ [m]) (savers σ) (trace σ)).

Definition get_module (ref : nat) : Exec S P (nn_module P) := λ σ,
  match modules σ !! ref with
  | Some m => (Ok m, σ)
  | None => (Raise (RuntimeError "no such module"), σ)
  end.

Definition set_module (ref : nat) (m : nn_module P) : Exec S P () := λ σ,
  (Ok (), MkStore (<[ref := m]> (modules σ)) (savers σ) (trace σ)).

(** [model.to(device)] *)
Definition module_to (ref : nat) (device : torch_device) : Exec S P () :=
  m ← get_module ref;
  if device_available device then
    _ ← set_module ref (NnModule (parameters m) device (training m)
                                 (in_channels m) (out_channels m));
    tell (ModuleMoved ref device)
  else liftE (Raise (RuntimeError "device is not available")).

(** [model.eval()] *)
Definition module_eval (ref : nat) : Exec S P () :=
  m ← get_module ref;
  set_module ref (NnModule (parameters m) (module_device m) false
                           (in_channels m) (out_channels m)).

(** [model.load_state_dict(params)] *)
Definition load_state_dict (ref : nat) (params : P) : Exec S P () :=
  m ← get_module ref;
  set_module ref (NnModule params (module_device m) (training m)
                           (in_channels m) (out_channels m)).

(** Modelled from the spec: the DenseNet architecture
    (monai/networks/nets/densenet3d.py) is not among the sources. A network
    is constructed from its channel counts, on the CPU and in training
    mode. *)
Definition densenet121 (in_channels out_channels : nat) : Exec S P nat :=
  new_module (NnModule (initial_parameters w in_channels out_channels) cpu true
                       in_channels out_channels).

(** Modelled from the spec: the forward pass of the network. Applied to a
    batch of three-dimensional volumes with [in_channels] channels on its
    own device, it returns one row of [out_channels] scores per sample; it
    does not change its parameters. *)
Definition module_call (ref : nat) (x : value V S) : Exec S P (value V S) :=
  m ← get_module ref;
  match x with
  | Tensor (c :: spatial) blocks dev =>
      if decide (dev = module_device m ∧ c = in_channels m ∧ length spatial = 3) then
        _ ← tell (ForwardPass ref (parameters m) (length blocks));
        mret (ScoreTensor
                ((λ v, class_score w (parameters m) v <$> seq 0 (out_channels m))
                   <$> blocks) dev)
      else liftE (Raise (RuntimeError "input does not fit the network"))
  | _ => liftE (Raise TypeError)
  end.

(** ** ignite.engine *)

(** ignite's default batch preparation: unpack the pair and move both halves
    to the device. *)
Definition _prepare_batch (batch : value V S * value V S) (device : option torch_device)
  (non_blocking : bool) : outcome (value V S * value V S) :=
  let '(x, y) := batch in
  x' ← convert_tensor x device non_blocking;
  y' ← convert_tensor y device non_blocking;
  Ok (x', y').

Inductive Events : Type :=
| STARTED
| EPOCH_STARTED
| ITERATION_STARTED
| ITERATION_COMPLETED
| EPOCH_COMPLETED
| COMPLETED.

#[global] Instance Events_eq_dec : EqDecision Events.
Proof. solve_decision. Defined.

(** [engine.state]: the current batch and output, and the metric values (a
    metric is kept as the pair of correct and seen samples). *)
Record State : Type := MkState {
  iteration : nat;
  batch : option (list (value V S));
  output : option (value V S * value V S);
  metrics : gmap string (nat * nat);
}.

Record Engine : Type := MkEngine {
  process_function : list (value V S) → Exec S P (value V S * value V S);
  event_handlers : list (Events * (State → Exec S P State));
}.

Definition add_event_handler (engine : Engine) (event_name : Events)
  (handler : State → Exec S P State) : Engine :=
  MkEngine (process_function engine) (event_handlers engine ++ [(event_name, handler)]).

(** The handlers registered for the event run in registration order. *)
Definition fire_event (engine : Engine) (event_name : Events) (st : State) : Exec S P State :=
  for_each_exec (λ st '(name, handler),
                   if decide (name = event_name) then handler st else mret st)
                (event_handlers engine) st.

(** One iteration: get the batch, process it, tell the handlers. *)
Definition run_iteration (engine : Engine) (data : DataLoader) (st : State)
  (indices : list nat) : Exec S P State :=
  b ← liftE (fetch data indices);
  _ ← tell (BatchFetched indices);
  st ← fire_event engine ITERATION_STARTED
         (MkState (iteration st + 1) (Some b) (output st) (metrics st));
  out ← process_function engine b;
  fire_event engine ITERATION_COMPLETED
    (MkState (iteration st) (batch st) (Some out) (metrics st)).

(** [engine.run(data)] with the default single epoch. An exception of the
    loader, of the process function or of a handler ends the run. *)
Definition Engine_run (engine : Engine) (data : DataLoader) : Exec S P State :=
  st ← fire_event engine STARTED (MkState 0 None None ∅);
  st ← fire_event engine EPOCH_STARTED st;
  st ← for_each_exec (run_iteration engine data) (DataLoader_iter data) st;
  st ← fire_event engine EPOCH_COMPLETED st;
  fire_event engine COMPLETED st.

(** ** ignite.metrics *)

Inductive metric : Type := Accuracy.

Definition Accuracy_reset (name : string) (st : State) : Exec S P State :=
  mret (MkState (iteration st) (batch st) (output st) (<[name := (0, 0)]> (metrics st))).

Definition Accuracy_update (name : string) (st : State) : Exec S P State :=
  liftE
    match output st with
    | Some (y_pred, IntTensor y _) =>
        indices ← argmax y_pred 1;
        match indices with
        | IntTensor classes _ =>
            if decide (length classes = length y) then
              let correct := length (filter (λ p, p.1 = p.2) (zip classes y)) in
              let '(c, n) := default (0, 0) (metrics st !! name) in
              Ok (MkState (iteration st) (batch st) (output st)
                    (<[name := (c + correct, n + length y)]> (metrics st)))
            else Raise ValueError
        | _ => Raise TypeError
        end
    | _ => Raise TypeError
    end.

Definition metric_attach (m : metric) (engine : Engine) (name : string) : Engine :=
  match m with
  | Accuracy =>
      add_event_handler
        (add_event_handler engine EPOCH_STARTED (Accuracy_reset name))
        ITERATION_COMPLETED (Accuracy_update name)
  end.

(** The process function of a supervised evaluator (the nested function
    [_inference] of [create_supervised_evaluator], with the variables it
    closes over as parameters): put the model in evaluation mode, unpack the
    batch with [prepare_batch], apply the model, return [(y_pred, y)]. *)
Definition _inference (model : nat) (device : option torch_device) (non_blocking : bool)
  (prepare_batch : list (value V S) → option torch_device → bool
                   → outcome (value V S * value V S))
  (batch : list (value V S)) : Exec S P (value V S * value V S) :=
  _ ← module_eval model;
  '(x, y) ← liftE (prepare_batch batch device non_blocking);
  y_pred ← module_call model x;
  mret (y_pred, y).

(** [create_supervised_evaluator(model, metrics, device, non_blocking,
    prepare_batch)]: the model is moved to the device when one is given, and
    the metrics are attached to the new engine. *)
Definition create_supervised_evaluator (model : nat) (metrics : list (string * metric))
  (device : option torch_device) (non_blocking : bool)
  (prepare_batch : list (value V S) → option torch_device → bool
                   → outcome (value V S * value V S))
  : Exec S P Engine :=
  _ ← match device with
      | Some d => module_to model d
      | None => mret ()
      end;
  mret (foldl (λ engine '(name, m), metric_attach m engine name)
              (MkEngine (_inference model device non_blocking prepare_batch) [])
              metrics).

(** ** monai.handlers *)

(** Modelled from the spec: StatsHandler (monai/handlers/stats_handler.py)
    is not among the sources. It logs statistics to standard output after
    each iteration and after the epoch. *)
Inductive StatsHandler : Type := MkStatsHandler.

(** Modelled from the spec: one record on standard output. *)
Definition StatsHandler_log (st : State) : Exec S P State :=
  _ ← tell (Logged (iteration st)); mret st.

(** Modelled from the spec: the handler logs after each iteration and after
    the epoch. *)
Definition StatsHandler_attach (h : StatsHandler) (engine : Engine) : Engine :=
  add_event_handler
    (add_event_handler engine ITERATION_COMPLETED StatsHandler_log)
    EPOCH_COMPLETED StatsHandler_log.

(** Modelled from the spec: a prediction saver, with the arguments the
    script gives it and the reference of its buffer of rows in the store. *)
Record ClassificationSaver : Type := MkClassificationSaver {
  saver_ref : nat;
  output_dir : string;
  batch_transform : list (value V S) → outcome (value V S);
  output_transform : value V S * value V S → outcome (value V S);
}.

(** The entries of a tensor along its first dimension. *)
Definition unstack (t : value V S) : outcome (list (saved S)) :=
  match t with
  | IntTensor values _ => Ok (SavedClass <$> values)
  | ScoreTensor rows _ => Ok (SavedScores <$> rows)
  | _ => Raise TypeError
  end.

(** Modelled from the spec: a new saver has kept nothing. *)
Definition ClassificationSaver_init (output_dir : string)
  (batch_transform : list (value V S) → outcome (value V S))
  (output_transform : value V S * value V S → outcome (value V S))
  : Exec S P ClassificationSaver := λ σ,
  (Ok (MkClassificationSaver (length (savers σ)) output_dir batch_transform output_transform),
   MkStore (modules σ) (savers σ ++ [[]]) (trace σ)).

(** Modelled from the spec: the saver keeps the row of one sample, its
    metadata and its prediction. *)
Definition keep_row (ref : nat) (row : meta_data * saved S) : Exec S P () := λ σ,
  match savers σ !! ref with
  | Some rows =>
      (Ok (), emit (PredictionKept ref row.1 row.2)
                (MkStore (modules σ) (<[ref := rows ++ [row]]> (savers σ)) (trace σ)))
  | None => (Raise (RuntimeError "no such saver"), σ)
  end.

(** Modelled from the spec: ClassificationSaver
    (monai/handlers/classification_saver.py) is not among the sources. After
    each iteration it takes the metadata of the batch through
    [batch_transform] and the predictions through [output_transform] and
    keeps one row per sample of the batch. *)
Definition ClassificationSaver_call (saver : ClassificationSaver) (st : State)
  : Exec S P State :=
  rows ← liftE (
    b ← from_option Ok (Raise TypeError) (batch st);
    out ← from_option Ok (Raise TypeError) (output st);
    meta ← batch_transform saver b;
    preds ← output_transform saver out ≫= unstack;
    match meta with
    | MetaBatch metas =>
        if decide (length metas = length preds) then Ok (zip metas preds)
        else Raise IndexError
    | _ => Raise TypeError
    end);
  _ ← for_each_exec (λ _ row, keep_row (saver_ref saver) row) rows ();
  mret st.

(** Modelled from the spec: the saver is called after each iteration. *)
Definition ClassificationSaver_attach (saver : ClassificationSaver) (engine : Engine)
  : Engine :=
  add_event_handler engine ITERATION_COMPLETED (ClassificationSaver_call saver).

(** Modelled from the spec: [finalize] writes what was kept to the output
    directory, one output per row, named by the metadata of the row. *)
Definition ClassificationSaver_finalize (saver : ClassificationSaver) : Exec S P () := λ σ,
  match savers σ !! saver_ref saver with
  | Some rows => (Ok (), emit (OutputWritten (output_dir saver) rows) σ)
  | None => (Raise (RuntimeError "no such saver"), σ)
  end.

(** Modelled from the spec: a checkpoint loader, with the arguments the
    script gives it. [load_dict] maps keys to objects of the store; it is
    kept in insertion order, the order in which the objects are loaded. *)
Record CheckpointLoader : Type := MkCheckpointLoader {
  load_path : string;
  load_dict : list (string * nat);
}.

(** [torch.load(path)] *)
Definition torch_load (path : string) : outcome (gmap string P) :=
  match checkpoint_files w path with
  | Some checkpoint => Ok checkpoint
  | None => Raise (FileNotFoundError path)
  end.

(** Modelled from the spec: CheckpointLoader
    (monai/handlers/checkpoint_loader.py) is not among the sources. When the
    run starts it reads the checkpoint file and loads, for each key of
    [load_dict], the checkpoint's entry under that key into the object the
    key maps to. *)
Definition CheckpointLoader_call (loader : CheckpointLoader) (st : State) : Exec S P State :=
  checkpoint ← liftE (torch_load (load_path loader));
  _ ← for_each_exec (λ _ '(key, ref),
         params ← liftE (dict_getitem checkpoint key);
         _ ← load_state_dict ref params;
         tell (StateDictLoaded (load_path loader) key ref))
       (load_dict loader) ();
  mret st.

(** Modelled from the spec: the loader is called when the run starts. *)
Definition CheckpointLoader_attach (loader : CheckpointLoader) (engine : Engine) : Engine :=
  add_event_handler engine STARTED (CheckpointLoader_call loader).

(** ** The script *)

(** demo dataset, user can easily change to own dataset *)
Definition images : list string := [
  "/workspace/data/medical/ixi/IXI-T1/IXI607-Guys-1097-T1.nii.gz";
  "/workspace/data/medical/ixi/IXI-T1/IXI175-HH-1570-T1.nii.gz";
  "/workspace/data/medical/ixi/IXI-T1/IXI385-HH-2078-T1.nii.gz";
  "/workspace/data/medical/ixi/IXI-T1/IXI344-Guys-0905-T1.nii.gz";
  "/workspace/data/medical/ixi/IXI-T1/IXI409-Guys-0960-T1.nii.gz";
  "/workspace/data/medical/ixi/IXI-T1/IXI584-Guys-1129-T1.nii.gz";
  "/workspace/data/medical/ixi/IXI-T1/IXI253-HH-1694-T1.nii.gz";
  "/workspace/data/medical/ixi/IXI-T1/IXI092-HH-1436-T1.nii.gz";
  "/workspace/data/medical/ixi/IXI-T1/IXI574-IOP-1156-T1.nii.gz";
  "/workspace/data/medical/ixi/IXI-T1/IXI585-Guys-1130-T1.nii.gz"
]%string.

Definition labels : list Z := [0; 0; 1; 0; 1; 0; 1; 0; 1; 0]%Z.

(** Define transforms for image *)
Definition val_transforms : ndarray V → outcome (ndarray V) :=
  Compose [Rescale; AddChannel; Resize [96; 96; 96]].

(** Define nifti dataset *)
Definition val_ds : NiftiDataset :=
  {| image_files := images; ds_labels := labels;
     ds_transform := val_transforms; image_only := false |}.

Definition device : torch_device := cuda 0.
Definition metric_name : string := "Accuracy".

(** add evaluation metric to the evaluator engine *)
Definition val_metrics : list (string * metric) := [(metric_name, Accuracy)].

Definition prepare_batch (batch : list (value V S)) (device : option torch_device)
  (non_blocking : bool) : outcome (value V S * value V S) :=
  b0 ← getitem batch 0;
  b1 ← getitem batch 1;
  _prepare_batch (b0, b1) device non_blocking.

(** create a validation data loader *)
Definition val_loader : DataLoader :=
  {| dataset := val_ds; batch_size := 2; num_workers := 4;
     pin_memory := torch_cuda_is_available |}.

(** The two functions handed to the prediction saver: for the array data
    format, the 3rd item of batch data is the meta_data. *)
Definition saver_batch_transform (batch : list (value V S)) : outcome (value V S) :=
  getitem batch 2.

Definition saver_output_transform (output : value V S * value V S) : outcome (value V S) :=
  argmax output.1 1.

(** The statements of the script from the construction of the network on,
    in order. *)
Definition main : Exec S P State :=
  (* Create DenseNet121 *)
  net ← densenet121 1 2;
  evaluator ← create_supervised_evaluator net val_metrics (Some device) true prepare_batch;
  (* Add stats event handler to print validation stats via evaluator *)
  let val_stats_handler := MkStatsHandler in
  let evaluator := StatsHandler_attach val_stats_handler evaluator in
  prediction_saver ← ClassificationSaver_init "tempdir"
                       saver_batch_transform saver_output_transform;
  let evaluator := ClassificationSaver_attach prediction_saver evaluator in
  (* the model was trained by the densenet_classification_3d_array example *)
  let evaluator := CheckpointLoader_attach
                     (MkCheckpointLoader "./runs/net_checkpoint_40.pth" [("net"%string, net)])
                     evaluator in
  state ← Engine_run evaluator val_loader;
  _ ← ClassificationSaver_finalize prediction_saver;
  mret state.

(** ** The objects of the script at the call of [evaluator.run]

    The network is the first module object of the store and the prediction
    saver the first saver object, so both have reference 0. *)

Definition checkpoint_path : string := "./runs/net_checkpoint_40.pth".

Definition script_saver : ClassificationSaver :=
  MkClassificationSaver 0 "tempdir" saver_batch_transform saver_output_transform.

Definition script_evaluator : Engine :=
  CheckpointLoader_attach (MkCheckpointLoader checkpoint_path [("net"%string, 0)])
    (ClassificationSaver_attach script_saver
       (StatsHandler_attach MkStatsHandler
          (foldl (λ engine '(name, m), metric_attach m engine name)
                 (MkEngine (_inference 0 (Some device) true prepare_batch) [])
                 val_metrics))).

(** The store when the network has been created and nothing else happened. *)
Definition store_created : Store S P :=
  MkStore [NnModule (initial_parameters w 1 2) cpu true 1 2] [] [].

(** The store when [evaluator.run] is called. *)
Definition store_at_run : Store S P :=
  MkStore [NnModule (initial_parameters w 1 2) (cuda 0) true 1 2] [[]]
          [ModuleMoved 0 (cuda 0)].

(** The store when the checkpoint has been loaded. *)
Definition store_loaded (params : P) : Store S P :=
  MkStore [NnModule params (cuda 0) true 1 2] [[]]
          [ModuleMoved 0 (cuda 0); StateDictLoaded checkpoint_path "net" 0].

(** What the checkpoint loader reads for the network. *)
Definition checkpoint_net : outcome P :=
  torch_load checkpoint_path ≫= λ checkpoint, dict_getitem checkpoint "net".

(** The run after the STARTED event. *)
Definition evaluation_pass (engine : Engine) (data : DataLoader) (st : State)
  : Exec S P State :=
  st ← fire_event engine EPOCH_STARTED st;
  st ← for_each_exec (run_iteration engine data) (DataLoader_iter data) st;
  st ← fire_event engine EPOCH_COMPLETED st;
  fire_event engine COMPLETED st.

(** ** Invariants of the evaluation *)

(** A saved entry that is a class index of a two-class network. *)
Definition class_index (p : saved S) : Prop := p = SavedClass 0 ∨ p = SavedClass 1.

(** The row of scores that the network of the script, with the given
    parameters, gives to a voxel block: one score per class. *)
Definition network_scores (params : P) (v : V) : list S :=
  class_score w params v <$> seq 0 2.

(** A saved entry that is the argmax of the scores that the network with the
    given parameters gives to some voxel block. *)
Definition argmax_class (params : P) (p : saved S) : Prop :=
  ∃ v z, argmax_row (network_scores params v) = Ok z ∧ p = SavedClass z.

(** The store during the evaluation: one network, on the device, with the
    given parameters and the channel counts of the script; one saver, which
    holds only argmax classes of this network. *)
Definition evaluating (params : P) (σ : Store S P) : Prop :=
  (∃ m, modules σ = [m] ∧ parameters m = params ∧ module_device m = cuda 0
        ∧ in_channels m = 1 ∧ out_channels m = 2)
  ∧ ∃ rows, savers σ = [rows] ∧ Forall (λ row, argmax_class params row.2) rows.

(** The events of the process function and of the handlers of an iteration. *)
Definition handler_event (params : P) (e : event S P) : Prop :=
  match e with
  | Logged _ => True
  | ForwardPass ref p _ => ref = 0 ∧ p = params
  | PredictionKept saver _ p => saver = 0 ∧ argmax_class params p
  | _ => False
  end.

(** The events of the evaluation pass: those, and the fetching of a batch. *)
Definition evaluation_event (params : P) (e : event S P) : Prop :=
  match e with
  | BatchFetched _ => True
  | _ => handler_event params e
  end.

(** The batches fetched in a trace, in order. *)
Definition fetched (evs : list (event S P)) : list (list nat) :=
  omap (λ e, match e with BatchFetched indices => Some indices | _ => None end) evs.

(** The output of the engine state, when there is one, is the scores of the
    network with the given parameters, one row per sample, paired with the
    labels. *)
Definition scored (params : P) (st : State) : Prop :=
  match output st with
  | None => True
  | Some (y_pred, _) =>
      ∃ rows dev, y_pred = ScoreTensor rows dev
                  ∧ Forall (λ row, ∃ v, row = network_scores params v) rows
  end.

(** A statement run in a store that satisfies [inv] leaves a store that
    satisfies it, extends the trace by events of the class [Q] and, when it
    returns, returns a value that satisfies [R]. *)
Definition spec {A} (inv : Store S P → Prop) (Q : event S P → Prop) (m : Exec S P A)
  (R : A → Prop) : Prop :=
  ∀ σ, inv σ →
    inv (m σ).2
    ∧ (∃ evs, trace (m σ).2 = trace σ ++ evs ∧ Forall Q evs)
    ∧ ∀ a, (m σ).1 = Ok a → R a.

(** What is known of a part of the evaluation pass that was run in a store
    [σ] and gave the result [r]: the invariant holds again, the trace grew
    by evaluation events, the batches fetched are the first of [batches],
    all of them when the part returned, and the state returned is scored. *)
Definition pass_result (params : P) (batches : list (list nat)) (σ : Store S P)
  (r : outcome State * Store S P) : Prop :=
  evaluating params r.2
  ∧ (∃ evs, trace r.2 = trace σ ++ evs
            ∧ Forall (evaluation_event params) evs
            ∧ fetched evs `prefix_of` batches
            ∧ (is_Ok r.1 → fetched evs = batches))
  ∧ ∀ st, r.1 = Ok st → scored params st.

(** A dataset sample as the list of its three items. *)
Definition sample_of (x : ndarray V * Z * meta_data) : list (item V) :=
  [Img x.1.1; Label x.1.2; Meta x.2].

(** The sample at a position of a dataset: the transformed image of the
    file at that position, the label at that position, and the metadata of
    the file, its name and the shape read from it. *)
Definition sample_at (ds : NiftiDataset) (i : nat) (x : ndarray V * Z * meta_data) : Prop :=
  ∃ path raw, image_files ds !! i = Some path
              ∧ nifti_files w path = Some raw
              ∧ ds_transform ds raw = Ok x.1.1
              ∧ ds_labels ds !! i = Some x.1.2
              ∧ x.2 = MetaData path (shape raw).

(** The row of the output for the sample at a position of the dataset of
    the script: the metadata of the sample and the argmax of the scores
    that the network with the given parameters gives to its transformed
    image. *)
Definition output_row (params : P) (i : nat) (row : meta_data * saved S) : Prop :=
  ∃ x z, sample_at val_ds i x
         ∧ argmax_row (network_scores params (voxels x.1.1)) = Ok z
         ∧ row = (x.2, SavedClass z).

(** The four ways the script can end: no device; no checkpoint entry for the
    network; an exception during the evaluation pass; the pass completed
    and the saver finalized, with one row per sample of the dataset. *)
Inductive script_result : outcome State → Store S P → Prop :=
| no_device :
    device_available device = false →
    script_result (Raise (RuntimeError "device is not available")) store_created
| no_checkpoint e :
    device_available device = true →
    checkpoint_net = Raise e →
    script_result (Raise e) store_at_run
| evaluation_failed params e σ evs :
    device_available device = true →
    checkpoint_net = Ok params →
    evaluating params σ →
    trace σ = trace (store_loaded params) ++ evs →
    Forall (evaluation_event params) evs →
    fetched evs `prefix_of` DataLoader_iter val_loader →
    script_result (Raise e) σ
| evaluation_completed params st σ evs rows :
    device_available device = true →
    checkpoint_net = Ok params →
    evaluating params σ →
    trace σ = trace (store_loaded params) ++ evs →
    Forall (evaluation_event params) evs →
    fetched evs = DataLoader_iter val_loader →
    savers σ = [rows] →
    Forall2 (output_row params) (concat (DataLoader_iter val_loader)) rows →
    script_result (Ok st) (emit (OutputWritten "tempdir" rows) σ).

(** ** Classes of events, for the statements about the trace *)

(** The event is the writing of the saver's output. *)
Definition writes_output (e : event S P) : Prop :=
  match e with OutputWritten _ _ => True | _ => False end.

(** The event is the loading of parameters into a module. *)
Definition loads_parameters (e : event S P) : Prop :=
  match e with StateDictLoaded _ _ _ => True | _ => False end.

(** The event belongs to the processing of a batch. *)
Definition processes_batch (e : event S P) : Prop :=
  match e with
  | BatchFetched _ | ForwardPass _ _ _ | PredictionKept _ _ _ => True
  | _ => False
  end.

(** A forward pass of the event, if it is one, is one of the network with
    the given parameters. *)
Definition forward_with (params : P) (e : event S P) : Prop :=
  match e with ForwardPass ref p _ => ref = 0 ∧ p = params | _ => True end.

(** The event keeps or writes something. *)
Definition persists (e : event S P) : Prop :=
  match e with
  | PredictionKept _ _ _ | OutputWritten _ _ => True
  | _ => False
  end.

(** What the event keeps or writes, if it does, is class indices 0 or 1. *)
Definition persists_class_indices (e : event S P) : Prop :=
  match e with
  | PredictionKept _ _ p => class_index p
  | OutputWritten _ rows => Forall (λ row, class_index row.2) rows
  | _ => True
  end.

(** What the event keeps or writes, if it does, is argmax classes of the
    network with the given parameters. *)
Definition persists_argmax (params : P) (e : event S P) : Prop :=
  match e with
  | PredictionKept _ _ p => argmax_class params p
  | OutputWritten _ rows => Forall (λ row, argmax_class params row.2) rows
  | _ => True
  end.

(** ** Completion *)

(** A statement run in a store that satisfies [inv] returns, leaves a store
    that satisfies it, and returns a value that satisfies [R]. *)
Definition returns {A} (inv : Store S P → Prop) (m : Exec S P A) (R : A → Prop) : Prop :=
  ∀ σ, inv σ → ∃ a σ', m σ = (Ok a, σ') ∧ inv σ' ∧ R a.

(** A batch of [n] transformed samples as the loader yields it. *)
Definition loaded_batch (n : nat) (b : list (value V S)) : Prop :=
  ∃ blocks values metas,
    b = [Tensor [1; 96; 96; 96] blocks cpu; IntTensor values cpu; MetaBatch metas]
    ∧ length blocks = n ∧ length values = n ∧ length metas = n.

(** The engine state after the process function: the batch of the iteration
    and, for each of its samples, the scores of the network and a label. *)
Definition processed (params : P) (st : State) : Prop :=
  ∃ n b rows dev values dev',
    batch st = Some b ∧ loaded_batch n b
    ∧ output st = Some (ScoreTensor rows dev, IntTensor values dev')
    ∧ length rows = n ∧ length values = n
    ∧ Forall (λ row, ∃ v, row = network_scores params v) rows.

(** The world has what the script needs: the device, the entry of the
    network in the checkpoint, and a three-dimensional volume in each image
    file. *)
Definition world_ready : Prop :=
  device_available device = true
  ∧ is_Ok checkpoint_net
  ∧ ∀ path, path ∈ images →
      ∃ raw, nifti_files w path = Some raw ∧ length (shape raw) = 3.

(** ** What a run leaves behind, as a function of the samples *)

(** The class the saver keeps for a voxel block: the argmax of the two
    scores that the network gives to it. *)
Definition predicted_class (params : P) (v : V) : Z :=
  Z.of_nat (argmax_from 0 (class_score w params v 0) 1 [class_score w params v 1]).

(** The row the saver keeps for a sample. *)
Definition sample_row (params : P) (x : ndarray V * Z * meta_data) : meta_data * saved S :=
  (x.2, SavedClass (predicted_class params (voxels x.1.1))).

(** The rows the saver keeps for the samples of a batch. *)
Definition sample_rows (params : P) (xs : list (ndarray V * Z * meta_data))
  : list (meta_data * saved S) :=
  sample_row params <$> xs.

(** The batch the loader yields for samples of the dataset of the script. *)
Definition collated (xs : list (ndarray V * Z * meta_data)) : list (value V S) :=
  [Tensor [1; 96; 96; 96] ((λ x, voxels x.1.1) <$> xs) cpu;
   IntTensor ((λ x, x.1.2) <$> xs) cpu;
   MetaBatch (snd <$> xs)].

(** The output of the process function on that batch: the scores of the
    network and the labels, both on the device. *)
Definition iteration_output (params : P) (xs : list (ndarray V * Z * meta_data))
  : value V S * value V S :=
  (ScoreTensor (network_scores params <$> ((λ x, voxels x.1.1) <$> xs)) (cuda 0),
   IntTensor ((λ x, x.1.2) <$> xs) (cuda 0)).

(** The number of positions at which the predicted class is the label. *)
Definition correct_count (classes labels : list Z) : nat :=
  length (filter (λ p, p.1 = p.2) (zip classes labels)).

(** The number of samples whose predicted class is their label. *)
Definition correct_samples (params : P) (xs : list (ndarray V * Z * meta_data)) : nat :=
  length (filter (λ x, predicted_class params (voxels x.1.1) = x.1.2) xs).

(** The events of the saver keeping rows. *)
Definition kept_events (rows : list (meta_data * saved S)) : list (event S P) :=
  (λ row, PredictionKept 0 row.1 row.2) <$> rows.

(** The events of iteration number [k] on the batch of the given indices,
    when the saver kept the given rows: the batch is fetched, the network
    is applied once to the whole batch, the statistics are logged, the rows
    are kept. *)
Definition iteration_events (params : P) (k : nat) (indices : list nat)
  (rows : list (meta_data * saved S)) : list (event S P) :=
  [BatchFetched indices; ForwardPass 0 params (length indices); Logged k]
  ++ kept_events rows.

(** The events of the iterations on the given batches, after [done]
    iterations. *)
Fixpoint iterations_events (params : P) (done : nat) (batches : list (list nat))
  (rowss : list (list (meta_data * saved S))) : list (event S P) :=
  match batches, rowss with
  | indices :: batches', rows :: rowss' =>
      iteration_events params (done + 1) indices rows
      ++ iterations_events params (done + 1) batches' rowss'
  | _, _ => []
  end.

(** ** The class of a sample, by comparison of its two scores *)

(** The class of a voxel block under given parameters: class 1 when the
    score of class 1 is greater than the score of class 0, class 0
    otherwise (so also when the two scores are equal). *)
Definition greater_score_class (params : P) (v : V) : Z :=
  if score_gt w (class_score w params v 1) (class_score w params v 0) then 1 else 0.

(** The row of image file number [i] of the script: the name of the file
    and the shape read from it, with the class of its transformed image. *)
Definition image_row (params : P) (i : nat) (row : meta_data * saved S) : Prop :=
  ∃ path raw img,
    images !! i = Some path
    ∧ nifti_files w path = Some raw
    ∧ val_transforms raw = Ok img
    ∧ row = (MetaData path (shape raw), SavedClass (greater_score_class params (voxels img))).

(** What the event keeps or writes, if it does, is rows of image files of
    the script: a kept row is the row of one of the files, and the rows
    written are the rows of the first files, in the order of the list. *)
Definition persists_image_rows (params : P) (e : event S P) : Prop :=
  match e with
  | PredictionKept _ m p => ∃ i, image_row params i (m, p)
  | OutputWritten _ rows => Forall2 (image_row params) (seq 0 (length rows)) rows
  | _ => True
  end.

(** * Properties of the script *)

(** ** Batch unpacking *)

Lemma getitem_lookup {A} (l : list A) (i : nat) (x : A) :
  l !! i = Some x → getitem l i = Ok x.
Proof. intros Hl. unfold getitem. by rewrite Hl. Qed.

Lemma getitem_Ok {A} (l : list A) (i : nat) (x : A) :
  getitem l i = Ok x ↔ l !! i = Some x.
Proof.
  unfold getitem. split.
  - destruct (l !! i); [intros [= ->]; done | discriminate].
  - intros ->. done.
Qed.

(** ** The transform chain *)

Lemma Compose_cons (t : transform) (ts : list transform) (img : ndarray V) :
  Compose (t :: ts) img = apply_transform t img ≫= Compose ts.
Proof. reflexivity. Qed.

Lemma Compose_three (t1 t2 t3 : transform) (img : ndarray V) :
  Compose [t1; t2; t3] img
  = (apply_transform t1 img ≫= apply_transform t2) ≫= apply_transform t3.
Proof.
  rewrite !Compose_cons.
  destruct (apply_transform t1 img) as [a|e]; [|reflexivity].
  cbn. destruct (apply_transform t2 a) as [b|e]; [|reflexivity].
  cbn. destruct (apply_transform t3 b); reflexivity.
Qed.

Lemma Rescale_shape (img out : ndarray V) :
  apply_transform Rescale img = Ok out → shape out = shape img.
Proof. by intros [= <-]. Qed.

Lemma AddChannel_shape (img out : ndarray V) :
  apply_transform AddChannel img = Ok out → shape out = 1 :: shape img.
Proof. by intros [= <-]. Qed.

Lemma Resize_shape (output_shape : list nat) (img : ndarray V) (c : nat) (spatial : list nat) :
  shape img = c :: spatial → length spatial = length output_shape →
  ∃ out, apply_transform (Resize output_shape) img = Ok out
         ∧ shape out = c :: output_shape.
Proof.
  intros Hsh Hlen. unfold apply_transform. rewrite Hsh.
  rewrite decide_True by done. eauto.
Qed.

Lemma val_transforms_3d (img : ndarray V) :
  length (shape img) = 3 →
  ∃ out, val_transforms img = Ok out ∧ shape out = [1; 96; 96; 96].
Proof.
  intros H3. unfold val_transforms. rewrite Compose_three.
  destruct (apply_transform Rescale img) as [a|e] eqn:Ha; [|discriminate].
  apply Rescale_shape in Ha.
  change (Ok a ≫= apply_transform AddChannel) with (apply_transform AddChannel a).
  destruct (apply_transform AddChannel a) as [b|e] eqn:Hb; [|discriminate].
  apply AddChannel_shape in Hb.
  destruct (Resize_shape [96; 96; 96] b 1 (shape a)) as (out & Hout & Hsh).
  - done.
  - rewrite Ha. done.
  - exists out. split; [exact Hout | exact Hsh].
Qed.

(** The order matters: resizing before the channel is added fails on a
    three-dimensional volume, because the first axis is taken for the
    channel axis and two spatial axes are left for three sizes. *)
Lemma Resize_before_AddChannel_fails (img : ndarray V) :
  length (shape img) = 3 →
  Compose [Rescale; Resize [96; 96; 96]; AddChannel] img = Raise ValueError.
Proof.
  intros H3. rewrite !Compose_cons. cbn.
  destruct (shape img) as [|c [|h [|v [|? ?]]]]; try discriminate. done.
Qed.

(** ** Reasoning about statements *)

Lemma bind_Ok {A B} (m : Exec S P A) (f : A → Exec S P B) σ a σ' :
  m σ = (Ok a, σ') → (m ≫= f) σ = f a σ'.
Proof. intros Hm. unfold mbind, Exec_bind. by rewrite Hm. Qed.

Lemma bind_Raise {A B} (m : Exec S P A) (f : A → Exec S P B) σ e σ' :
  m σ = (Raise e, σ') → (m ≫= f) σ = (Raise e, σ').
Proof. intros Hm. unfold mbind, Exec_bind. by rewrite Hm. Qed.

Lemma spec_ret {A} inv Q (a : A) (R : A → Prop) : R a → spec inv Q (mret a) R.
Proof.
  intros HR σ Hσ. cbn. split; [done|]. split.
  - exists []. by rewrite app_nil_r.
  - by intros ? [= <-].
Qed.

Lemma spec_bind {A B} inv Q (m : Exec S P A) (f : A → Exec S P B) (R : A → Prop)
  (R' : B → Prop) :
  spec inv Q m R → (∀ a, R a → spec inv Q (f a) R') → spec inv Q (m ≫= f) R'.
Proof.
  intros Hm Hf σ Hσ. destruct (Hm σ Hσ) as (Hinv & (evs & Htr & Hevs) & Hres).
  destruct (m σ) as [[a|e] σ'] eqn:Hmσ; cbn in *.
  - rewrite (bind_Ok _ _ _ _ _ Hmσ).
    destruct (Hf a (Hres a eq_refl) σ' Hinv) as (Hinv' & (evs' & Htr' & Hevs') & Hres').
    split; [done|]. split; [|done].
    exists (evs ++ evs'). rewrite Htr', Htr, app_assoc. split; [done|].
    by apply Forall_app.
  - rewrite (bind_Raise _ _ _ _ _ Hmσ). cbn. split; [done|]. split; [eauto|].
    intros ? [=].
Qed.

Lemma spec_liftE {A} inv Q (m : outcome A) (R : A → Prop) :
  (∀ a, m = Ok a → R a) → spec inv Q (liftE m) R.
Proof.
  intros HR σ Hσ. cbn. split; [done|]. split; [|done].
  exists []. by rewrite app_nil_r.
Qed.

Lemma spec_for_each_exec {A B} inv Q (f : B → A → Exec S P B) (R : B → Prop) (xs : list A) :
  (∀ acc x, x ∈ xs → R acc → spec inv Q (f acc x) R) →
  ∀ acc, R acc → spec inv Q (for_each_exec f xs acc) R.
Proof.
  induction xs as [|x xs IH]; intros Hf acc Hacc; cbn [for_each_exec].
  - by apply spec_ret.
  - eapply spec_bind.
    + apply Hf; [by left | done].
    + intros acc' Hacc'. apply IH; [|done].
      intros acc'' y Hy. apply Hf. by right.
Qed.

(** *** The store operations under the evaluation invariant *)

Section Evaluating.
Variable params : P.

Lemma evaluating_emit (e : event S P) σ : evaluating params σ → evaluating params (emit e σ).
Proof. done. Qed.

Lemma spec_tell (Q : event S P → Prop) (e : event S P) :
  Q e → spec (evaluating params) Q (tell e) (λ _, True).
Proof.
  intros He σ Hσ. cbn. split; [done|]. split; [|done].
  exists [e]. split; [done|]. by constructor.
Qed.

Lemma get_module_evaluating σ :
  evaluating params σ →
  ∃ m, get_module 0 σ = (Ok m, σ) ∧ modules σ = [m] ∧ parameters m = params
       ∧ module_device m = cuda 0 ∧ in_channels m = 1 ∧ out_channels m = 2.
Proof.
  intros [(m & Hm & ?) _]. exists m. unfold get_module. rewrite Hm. done.
Qed.

Lemma spec_module_eval Q : spec (evaluating params) Q (module_eval 0) (λ _, True).
Proof.
  intros σ Hσ. destruct (get_module_evaluating σ Hσ) as (m & Hget & Hm & Hp & Hd & Hi & Ho).
  unfold module_eval. rewrite (bind_Ok _ _ _ _ _ Hget). cbn.
  split; [|split; [|done]].
  - destruct Hσ as [_ Hsav]. split; [|done]. rewrite Hm. cbn. eauto 10.
  - exists []. by rewrite app_nil_r.
Qed.

Lemma spec_module_call Q (x : value V S) :
  (∀ n, Q (ForwardPass 0 params n)) →
  spec (evaluating params) Q (module_call 0 x)
       (λ y_pred, ∃ rows dev, y_pred = ScoreTensor rows dev
                              ∧ Forall (λ row, ∃ v, row = network_scores params v) rows).
Proof.
  intros HQ σ Hσ.
  destruct (get_module_evaluating σ Hσ) as (m & Hget & Hm & Hp & Hd & Hi & Ho).
  unfold module_call. rewrite (bind_Ok _ _ _ _ _ Hget).
  assert (Hnone : ∀ e, evaluating params σ
            ∧ (∃ evs, trace σ = trace σ ++ evs ∧ Forall Q evs)
            ∧ ∀ a, @Raise (value V S) e = Ok a → ∃ rows dev, a = ScoreTensor rows dev
                     ∧ Forall (λ row, ∃ v, row = network_scores params v) rows).
  { intros e. split; [done|]. split; [|done]. exists []. by rewrite app_nil_r. }
  destruct x as [sh blocks dev| | |]; cbn; try apply Hnone.
  destruct sh as [|c spatial]; cbn; [apply Hnone|].
  case_decide; cbn; [|apply Hnone].
  split; [done|]. split.
  - exists [ForwardPass 0 (parameters m) (length blocks)]. split; [done|].
    constructor; [|done]. rewrite Hp. apply HQ.
  - intros a [= <-]. eexists _, _. split; [done|].
    apply Forall_fmap, Forall_forall. intros v _. cbn.
    exists v. by rewrite Hp, Ho.
Qed.

Lemma spec_keep_row Q (row : meta_data * saved S) :
  argmax_class params row.2 → Q (PredictionKept 0 row.1 row.2) →
  spec (evaluating params) Q (keep_row 0 row) (λ _, True).
Proof.
  intros Hrow HQ σ Hσ. destruct Hσ as [Hmod (rows & Hsav & Hrows)].
  unfold keep_row. rewrite Hsav. cbn. split; [|split; [|done]].
  - split; [done|]. exists (rows ++ [row]). split; [done|].
    apply Forall_app. split; [done|]. by constructor.
  - exists [PredictionKept 0 row.1 row.2]. split; [done|]. by constructor.
Qed.

End Evaluating.

(** ** argmax *)

Lemma argmax_from_bound (row : list S) (best_i : nat) (best : S) (i : nat) :
  best_i < i → argmax_from best_i best i row < i + length row.
Proof.
  revert best_i best i. induction row as [|x row IH]; intros best_i best i Hlt; cbn.
  - lia.
  - destruct (score_gt w x best).
    + specialize (IH i x (i + 1)). lia.
    + specialize (IH best_i best (i + 1)). lia.
Qed.

Lemma argmax_row_bound (row : list S) :
  row ≠ [] → ∃ z, argmax_row row = Ok z ∧ (0 ≤ z < Z.of_nat (length row))%Z.
Proof.
  destruct row as [|x row]; [done|]. intros _. eexists. split; [done|].
  pose proof (argmax_from_bound row 0 x 1). cbn [length]. lia.
Qed.

Lemma argmax_row_two_classes (row : list S) :
  length row = 2 → ∃ z, argmax_row row = Ok z ∧ (z = 0 ∨ z = 1)%Z.
Proof.
  intros Hlen. destruct (argmax_row_bound row) as (z & Hz & Hb).
  - by destruct row.
  - exists z. split; [done|]. rewrite Hlen in Hb. lia.
Qed.

Lemma map_outcome_Ok {A B} (f : A → outcome B) (xs : list A) (ys : list B) :
  map_outcome f xs = Ok ys ↔ Forall2 (λ x y, f x = Ok y) xs ys.
Proof.
  revert ys. induction xs as [|x xs IH]; intros ys; cbn.
  - split; [intros [= <-]; constructor | by inversion 1].
  - split.
    + destruct (f x) as [y|e] eqn:Hx; [|done]. cbn.
      destruct (map_outcome f xs) as [ys'|e] eqn:Hxs; [|done]. cbn.
      intros [= <-]. constructor; [done|]. by apply IH.
    + inversion 1 as [|? y ? ys' Hy Hys]; subst. rewrite Hy. cbn.
      apply IH in Hys. rewrite Hys. done.
Qed.


(** The output transform of the prediction saver, on the output of a
    two-class network: one class index, 0 or 1, per sample. *)
Lemma saver_output_transform_classes (rows : list (list S)) (dev : torch_device)
  (y : value V S) :
  Forall (λ row, length row = 2) rows →
  ∃ classes, saver_output_transform (ScoreTensor rows dev, y) = Ok (IntTensor classes dev)
             ∧ Forall2 (λ row z, argmax_row row = Ok z ∧ (z = 0 ∨ z = 1)%Z) rows classes.
Proof.
  intros Hrows. unfold saver_output_transform, argmax. cbn. rewrite decide_True by done.
  induction Hrows as [|row rows Hrow Hrows (classes & Hcl & Hall)].
  - exists []. split; [done|]. constructor.
  - destruct (argmax_row_two_classes row Hrow) as (z & Hz & Hz01).
    exists (z :: classes). split.
    + cbn. rewrite Hz. cbn.
      destruct (map_outcome argmax_row rows) as [cs|e]; [|done].
      cbn in *. by injection Hcl as ->.
    + by constructor.
Qed.

(** ** The handlers of the script's evaluator *)

Section Handlers.
Variable params : P.
#[local] Abbreviation inv := (evaluating params).
#[local] Abbreviation hev := (handler_event params).

Lemma network_scores_length (v : V) : length (network_scores params v) = 2.
Proof. unfold network_scores. by rewrite length_fmap, length_seq. Qed.

Lemma network_rows_two (rows : list (list S)) :
  Forall (λ row, ∃ v, row = network_scores params v) rows →
  Forall (λ row, length row = 2) rows.
Proof.
  intros Hrows. eapply Forall_impl; [done|].
  intros row (v & ->). apply network_scores_length.
Qed.

Lemma argmax_class_index (p : saved S) : argmax_class params p → class_index p.
Proof.
  intros (v & z & Hz & ->).
  destruct (argmax_row_two_classes _ (network_scores_length v)) as (z' & Hz' & Hz01).
  assert (z' = z) as -> by congruence.
  destruct Hz01 as [-> | ->]; [by left | by right].
Qed.

Lemma spec_Accuracy_reset name st :
  scored params st → spec inv hev (Accuracy_reset name st) (scored params).
Proof. intros Hst. by apply spec_ret. Qed.

Lemma spec_Accuracy_update name st :
  scored params st → spec inv hev (Accuracy_update name st) (scored params).
Proof.
  intros Hst. apply spec_liftE. intros st'. unfold scored in *.
  destruct (output st) as [[y_pred y]|]; [|done].
  destruct y; try done.
  destruct (argmax y_pred 1) as [indices|]; [|done]. cbn.
  destruct indices; try done.
  case_decide; [|done].
  destruct (default (0, 0) (metrics st !! name)). intros [= <-]. done.
Qed.

Lemma spec_StatsHandler_log st :
  scored params st → spec inv hev (StatsHandler_log st) (scored params).
Proof.
  intros Hst. unfold StatsHandler_log. eapply spec_bind.
  - by apply spec_tell.
  - intros _ _. by apply spec_ret.
Qed.

Lemma saver_rows_class_indices st (rows : list (meta_data * saved S)) :
  scored params st →
  (b ← from_option Ok (Raise TypeError) (batch st);
   out ← from_option Ok (Raise TypeError) (output st);
   meta ← batch_transform script_saver b;
   preds ← output_transform script_saver out ≫= unstack;
   match meta with
   | MetaBatch metas =>
       if decide (length metas = length preds) then Ok (zip metas preds)
       else Raise IndexError
   | _ => Raise TypeError
   end) = Ok rows →
  Forall (λ row, argmax_class params row.2) rows.
Proof.
  intros Hst. unfold scored in Hst.
  change (batch_transform script_saver) with saver_batch_transform.
  change (output_transform script_saver) with saver_output_transform.
  destruct (batch st) as [b|]; [|done].
  destruct (output st) as [[y_pred y]|]; [|done].
  destruct Hst as (srows & dev & -> & Hsrows).
  cbn [from_option mbind outcome_bind].
  destruct (saver_batch_transform b) as [meta|]; [|done].
  destruct (saver_output_transform_classes srows dev y (network_rows_two _ Hsrows))
    as (classes & -> & Hcl).
  cbn [unstack mbind outcome_bind]. destruct meta as [| | |metas]; try done.
  case_decide; [|done]. intros [= <-].
  apply Forall_forall. intros [m p] Hin. cbn.
  apply elem_of_zip_r in Hin. apply list_elem_of_fmap in Hin as (z & -> & Hz).
  apply list_elem_of_lookup in Hz as (i & Hi).
  destruct (Forall2_lookup_r _ _ _ _ _ Hcl Hi) as (row & Hrow & Hz & _).
  rewrite Forall_forall in Hsrows.
  destruct (Hsrows row) as (v & ->); [by eapply list_elem_of_lookup_2|].
  by exists v, z.
Qed.

Lemma spec_ClassificationSaver_call st :
  scored params st → spec inv hev (ClassificationSaver_call script_saver st) (scored params).
Proof.
  intros Hst. unfold ClassificationSaver_call.
  eapply spec_bind with (R := λ rows, Forall (λ row, argmax_class params row.2) rows).
  - apply spec_liftE. intros rows. by apply saver_rows_class_indices.
  - intros rows Hrows. eapply spec_bind with (R := λ _, True).
    + apply spec_for_each_exec; [|done].
      intros [] row Hin _. rewrite Forall_forall in Hrows.
      apply spec_keep_row; [by apply Hrows|]. split; [done|]. by apply Hrows.
    + intros _ _. by apply spec_ret.
Qed.

Lemma spec_inference b :
  spec inv hev (_inference 0 (Some device) true prepare_batch b)
       (λ out, ∃ rows dev, out.1 = ScoreTensor rows dev
                           ∧ Forall (λ row, ∃ v, row = network_scores params v) rows).
Proof.
  unfold _inference. eapply spec_bind; [apply spec_module_eval|].
  intros _ _. eapply spec_bind with (R := λ _, True); [by apply spec_liftE|].
  intros [x y] _. eapply spec_bind; [by apply spec_module_call|].
  intros y_pred Hy. by apply spec_ret.
Qed.

(** Every handler of the evaluator that is not registered for STARTED keeps
    the invariant. *)
Lemma script_evaluator_handlers :
  Forall (λ '(name, handler),
            name ≠ STARTED → ∀ st, scored params st → spec inv hev (handler st) (scored params))
         (event_handlers script_evaluator).
Proof.
  cbn. repeat (apply List.Forall_cons; [|]); [..|apply List.Forall_nil].
  - intros _ st Hst. by apply spec_Accuracy_reset.
  - intros _ st Hst. by apply spec_Accuracy_update.
  - intros _ st Hst. by apply spec_StatsHandler_log.
  - intros _ st Hst. by apply spec_StatsHandler_log.
  - intros _ st Hst. by apply spec_ClassificationSaver_call.
  - intros Hne. done.
Qed.

Lemma spec_fire_event (event_name : Events) st :
  event_name ≠ STARTED → scored params st →
  spec inv hev (fire_event script_evaluator event_name st) (scored params).
Proof.
  intros Hev Hst. unfold fire_event.
  apply spec_for_each_exec; [|done].
  intros acc [name handler] Hin Hacc.
  pose proof script_evaluator_handlers as Hall. rewrite Forall_forall in Hall.
  specialize (Hall _ Hin). cbn in Hall.
  case_decide; [|by apply spec_ret].
  apply Hall; [congruence | done].
Qed.

End Handlers.

(** ** The run of the script's evaluator *)

Lemma fetched_app (evs evs' : list (event S P)) :
  fetched (evs ++ evs') = fetched evs ++ fetched evs'.
Proof. apply omap_app. Qed.

Lemma fetched_handler_events params (evs : list (event S P)) :
  Forall (handler_event params) evs → fetched evs = [].
Proof.
  induction 1 as [|e evs He _ IH]; [done|].
  unfold fetched in *. cbn. rewrite IH. by destruct e.
Qed.

Lemma handler_event_evaluation_event params (e : event S P) :
  handler_event params e → evaluation_event params e.
Proof. by destruct e. Qed.

Lemma pass_result_spec params (m : Exec S P State) σ :
  spec (evaluating params) (handler_event params) m (scored params) →
  evaluating params σ → pass_result params [] σ (m σ).
Proof.
  intros Hm Hσ. destruct (Hm σ Hσ) as (Hinv & (evs & Htr & Hevs) & Hres).
  split; [done|]. split; [|done].
  exists evs. split; [done|]. split.
  - eapply Forall_impl; [done|]. apply handler_event_evaluation_event.
  - rewrite (fetched_handler_events _ _ Hevs). done.
Qed.

Lemma pass_result_bind params (m : Exec S P State) (f : State → Exec S P State)
  (batches batches' : list (list nat)) σ :
  pass_result params batches σ (m σ) →
  (∀ st σ', scored params st → evaluating params σ' → pass_result params batches' σ' (f st σ')) →
  pass_result params (batches ++ batches') σ ((m ≫= f) σ).
Proof.
  intros (Hinv & (evs & Htr & Hevs & Hpre & Hall) & Hres) Hf.
  destruct (m σ) as [[st|e] σ'] eqn:Hmσ; cbn in *.
  - rewrite (bind_Ok _ _ _ _ _ Hmσ).
    destruct (Hf st σ' (Hres st eq_refl) Hinv)
      as (Hinv' & (evs' & Htr' & Hevs' & Hpre' & Hall') & Hres').
    split; [done|]. split; [|done].
    exists (evs ++ evs'). rewrite Htr', Htr, app_assoc, fetched_app.
    rewrite (Hall I).
    split; [done|]. split; [by apply Forall_app|]. split.
    + by apply prefix_app.
    + intros Hok. by rewrite (Hall' Hok).
  - rewrite (bind_Raise _ _ _ _ _ Hmσ). cbn. split; [done|]. split.
    + exists evs. split; [done|]. split; [done|]. split.
      * by apply prefix_app_r.
      * intros [].
    + intros ? [=].
Qed.

Lemma run_iteration_result params st indices σ :
  scored params st → evaluating params σ →
  pass_result params [indices] σ (run_iteration script_evaluator val_loader st indices σ).
Proof.
  intros Hst Hσ. unfold run_iteration.
  destruct (fetch val_loader indices) as [b|e] eqn:Hfetch.
  - rewrite (bind_Ok _ _ _ b σ) by done.
    rewrite (bind_Ok _ _ _ () (emit (BatchFetched indices) σ)) by done.
    match goal with |- pass_result _ _ _ (?m _) => set (rest := m) end.
    assert (Hm : spec (evaluating params) (handler_event params) rest (scored params)).
    { eapply spec_bind.
      - by apply spec_fire_event.
      - intros st1 Hst1. eapply spec_bind; [apply spec_inference|].
        intros [y_pred y] Hout. apply spec_fire_event; [done|].
        unfold scored. cbn. exact Hout. }
    destruct (Hm (emit (BatchFetched indices) σ)) as (Hinv & (evs & Htr & Hevs) & Hres);
      [by apply evaluating_emit|].
    split; [done|]. split; [|done].
    exists (BatchFetched indices :: evs).
    change (trace (emit (BatchFetched indices) σ)) with (trace σ ++ [BatchFetched indices]) in Htr.
    rewrite Htr, <- app_assoc.
    split; [done|]. split.
    + constructor; [done|]. eapply Forall_impl; [done|].
      apply handler_event_evaluation_event.
    + change (fetched (BatchFetched indices :: evs)) with (indices :: fetched evs).
      rewrite (fetched_handler_events _ _ Hevs). done.
  - rewrite (bind_Raise _ _ _ e σ) by done.
    cbn. split; [done|]. split; [|done].
    exists []. rewrite app_nil_r. split; [done|]. split; [done|]. split.
    + apply prefix_nil.
    + intros [].
Qed.

Lemma run_iterations_result params (batches : list (list nat)) st σ :
  scored params st → evaluating params σ →
  pass_result params batches σ
    (for_each_exec (run_iteration script_evaluator val_loader) batches st σ).
Proof.
  revert st σ. induction batches as [|indices batches IH]; intros st σ Hst Hσ.
  - cbn. split; [done|]. split; [|by intros ? [= <-]].
    exists []. by rewrite app_nil_r.
  - cbn [for_each_exec]. apply (pass_result_bind params _ _ [indices] batches).
    + by apply run_iteration_result.
    + intros st' σ' Hst' Hσ'. by apply IH.
Qed.

Lemma evaluation_pass_result params st σ :
  scored params st → evaluating params σ →
  pass_result params (DataLoader_iter val_loader) σ
    (evaluation_pass script_evaluator val_loader st σ).
Proof.
  intros Hst Hσ. unfold evaluation_pass.
  apply (pass_result_bind params _ _ [] (DataLoader_iter val_loader)).
  { apply pass_result_spec; [|done]. by apply spec_fire_event. }
  intros st1 σ1 Hst1 Hσ1.
  rewrite <- (app_nil_r (DataLoader_iter val_loader)).
  apply (pass_result_bind params _ _ (DataLoader_iter val_loader) []).
  { by apply run_iterations_result. }
  intros st2 σ2 Hst2 Hσ2.
  apply (pass_result_bind params _ _ [] []).
  { apply pass_result_spec; [|done]. by apply spec_fire_event. }
  intros st3 σ3 Hst3 Hσ3.
  apply pass_result_spec; [|done]. by apply spec_fire_event.
Qed.

(** ** The dataset and its samples *)

Lemma NiftiDataset_getitem_Ok (ds : NiftiDataset) (index : nat) (sample : list (item V)) :
  NiftiDataset_getitem ds index = Ok sample →
  ∃ path label raw img,
    image_files ds !! index = Some path
    ∧ ds_labels ds !! index = Some label
    ∧ nifti_files w path = Some raw
    ∧ ds_transform ds raw = Ok img
    ∧ sample = if image_only ds then [Img img; Label label]
               else [Img img; Label label; Meta (MetaData path (shape raw))].
Proof.
  unfold NiftiDataset_getitem, load_nifti.
  destruct (getitem (image_files ds) index) as [path|] eqn:Hpath; [|done].
  apply getitem_Ok in Hpath. cbn.
  destruct (nifti_files w path) as [raw|] eqn:Hraw; [|done]. cbn.
  destruct (getitem (ds_labels ds) index) as [label|] eqn:Hlabel; [|done].
  apply getitem_Ok in Hlabel. cbn.
  destruct (ds_transform ds raw) as [img|] eqn:Himg; [|done]. cbn.
  intros [= <-]. by exists path, label, raw, img.
Qed.


(** ** Collation *)

Lemma map_outcome_fmap_Ok {A B C} (f : B → outcome C) (g : A → B) (h : A → C)
  (xs : list A) :
  (∀ x, x ∈ xs → f (g x) = Ok (h x)) → map_outcome f (g <$> xs) = Ok (h <$> xs).
Proof.
  induction xs as [|x xs IH]; intros Hfg; [done|].
  cbn. rewrite Hfg by (by left). cbn. rewrite IH; [done|].
  intros y Hy. apply Hfg. by right.
Qed.

Lemma default_collate_cons (first : list (item V)) (rest : list (list (item V))) :
  default_collate (first :: rest)
  = if forallb (λ s, bool_decide (length s = length first)) (first :: rest) then
      map_outcome (λ j, column ← map_outcome (λ s, getitem s j) (first :: rest);
                        collate_column column)
                  (seq 0 (length first))
    else Raise (RuntimeError "each element in list of batch should be of equal size").
Proof. reflexivity. Qed.


Lemma collate_column_metas (metas : list meta_data) :
  metas ≠ [] → collate_column (Meta <$> metas) = Ok (@MetaBatch V S metas).
Proof.
  destruct metas as [|m metas]; [done|]. intros _.
  rewrite fmap_cons. cbn [collate_column]. rewrite <- fmap_cons.
  rewrite (map_outcome_fmap_Ok _ Meta id) by done. by rewrite list_fmap_id.
Qed.

Lemma collate_column_labels (values : list Z) :
  values ≠ [] → collate_column (Label <$> values) = Ok (@IntTensor V S values cpu).
Proof.
  destruct values as [|z values]; [done|]. intros _.
  rewrite fmap_cons. cbn [collate_column]. rewrite <- fmap_cons.
  rewrite (map_outcome_fmap_Ok _ Label id) by done. by rewrite list_fmap_id.
Qed.

(** Arrays of one shape are stacked. *)
Lemma collate_column_images (sh : list nat) (imgs : list (ndarray V)) :
  imgs ≠ [] → Forall (λ a, shape a = sh) imgs →
  collate_column (Img <$> imgs) = Ok (@Tensor V S sh (voxels <$> imgs) cpu).
Proof.
  destruct imgs as [|a imgs]; [done|]. intros _ Hsh.
  rewrite fmap_cons. cbn [collate_column]. rewrite <- fmap_cons.
  rewrite (map_outcome_fmap_Ok _ _ voxels).
  - cbn [mbind outcome_bind]. by rewrite (Forall_inv Hsh).
  - intros b Hb. rewrite Forall_forall in Hsh.
    rewrite decide_True; [done|]. rewrite (Hsh b Hb), (Hsh a); [done|by left].
Qed.

(** When arrays were stacked, the stack holds their voxel blocks in order. *)
Lemma collate_column_images_Ok (imgs : list (ndarray V)) (c : value V S) :
  collate_column (Img <$> imgs) = Ok c →
  ∃ sh, c = Tensor sh (voxels <$> imgs) cpu.
Proof.
  destruct imgs as [|a imgs]; [done|].
  rewrite fmap_cons. cbn [collate_column]. rewrite <- fmap_cons.
  destruct (map_outcome _ _) as [blocks|] eqn:Hblocks; [|done].
  cbn [mbind outcome_bind]. intros [= <-]. exists (shape a).
  apply map_outcome_Ok, Forall2_fmap_l in Hblocks.
  assert (blocks = voxels <$> (a :: imgs)) as ->; [|done].
  induction Hblocks as [|b v imgs' blocks Hb _ IH]; [done|].
  cbn in Hb. case_decide; [|done]. injection Hb as <-. by rewrite IH.
Qed.

(** Samples that are triples are collated position by position. *)
Lemma default_collate_sample_of (xs : list (ndarray V * Z * meta_data)) :
  xs ≠ [] →
  default_collate (sample_of <$> xs)
  = (stacked ← collate_column (Img <$> ((λ x, x.1.1) <$> xs));
     Ok [stacked; IntTensor ((λ x, x.1.2) <$> xs) cpu; MetaBatch (snd <$> xs)]).
Proof.
  intros Hne.
  assert (∃ x0 xs', xs = x0 :: xs') as (x0 & xs' & Hxs) by (destruct xs; [done|eauto]).
  rewrite Hxs at 1. rewrite fmap_cons, default_collate_cons, <- fmap_cons, <- Hxs.
  assert (forallb (λ s : list (item V), bool_decide (length s = length (sample_of x0)))
                  (sample_of <$> xs) = true) as ->.
  { apply forallb_forall. intros s Hs%list_elem_of_In.
    apply list_elem_of_fmap in Hs as (x & -> & _). by apply bool_decide_eq_true. }
  change (seq 0 (length (sample_of x0))) with [0; 1; 2].
  cbn [map_outcome].
  rewrite (map_outcome_fmap_Ok (λ s, getitem s 0) sample_of (λ x, Img x.1.1)) by done.
  rewrite (map_outcome_fmap_Ok (λ s, getitem s 1) sample_of (λ x, Label x.1.2)) by done.
  rewrite (map_outcome_fmap_Ok (λ s, getitem s 2) sample_of (λ x, Meta x.2)) by done.
  cbn [mbind outcome_bind].
  replace ((λ x : ndarray V * Z * meta_data, @Img V x.1.1) <$> xs)
    with (@Img V <$> ((λ x, x.1.1) <$> xs)) by (by rewrite <- list_fmap_compose).
  replace ((λ x : ndarray V * Z * meta_data, @Label V x.1.2) <$> xs)
    with (@Label V <$> ((λ x, x.1.2) <$> xs)) by (by rewrite <- list_fmap_compose).
  replace ((λ x : ndarray V * Z * meta_data, @Meta V x.2) <$> xs)
    with (@Meta V <$> (snd <$> xs)) by (by rewrite <- list_fmap_compose).
  rewrite collate_column_labels, collate_column_metas by (by rewrite Hxs).
  destruct (collate_column _); done.
Qed.

(** ** The batches of a dataset that carries metadata *)

(** The samples of a dataset that carries metadata are triples. *)
Lemma samples_are_triples (ds : NiftiDataset) (indices : list nat)
  (samples : list (list (item V))) :
  image_only ds = false →
  Forall2 (λ i s, NiftiDataset_getitem ds i = Ok s) indices samples →
  ∃ xs, samples = sample_of <$> xs ∧ Forall2 (sample_at ds) indices xs.
Proof.
  intros Himg. induction 1 as [|i s indices samples Hs _ (xs & -> & Hxs)].
  - exists []. split; [done|]. constructor.
  - apply NiftiDataset_getitem_Ok in Hs as (path & label & raw & img & Hp & Hl & Hr & Ht & ->).
    rewrite Himg. exists ((img, label, MetaData path (shape raw)) :: xs).
    split; [done|]. constructor; [|done]. by exists path, raw.
Qed.

(** A batch of a dataset that carries metadata: the stacked voxel blocks of
    the transformed images, the labels and the metadata of the samples at
    the positions of the batch, in their order. *)
Lemma fetch_Ok (loader : DataLoader) (indices : list nat) (b : list (value V S)) :
  image_only (dataset loader) = false →
  fetch loader indices = Ok b →
  ∃ xs sh,
    Forall2 (sample_at (dataset loader)) indices xs
    ∧ b = [Tensor sh ((λ x, voxels x.1.1) <$> xs) cpu;
           IntTensor ((λ x, x.1.2) <$> xs) cpu;
           MetaBatch (snd <$> xs)].
Proof.
  intros Himg. unfold fetch.
  destruct (map_outcome _ indices) as [samples|] eqn:Hsamples; [|done].
  cbn [mbind outcome_bind]. intros Hb. apply map_outcome_Ok in Hsamples.
  destruct (samples_are_triples _ _ _ Himg Hsamples) as (xs & -> & Hxs).
  assert (xs ≠ []) as Hne by (intros ->; discriminate Hb).
  rewrite (default_collate_sample_of xs Hne) in Hb.
  destruct (collate_column _) as [stacked|] eqn:Hstack; [|done].
  apply collate_column_images_Ok in Hstack as (sh & ->).
  injection Hb as <-. exists xs, sh. split; [done|].
  by rewrite <- list_fmap_compose.
Qed.

(** ** The rows of the prediction saver *)

Lemma bind_Ok_inv {A B} (m : Exec S P A) (f : A → Exec S P B) σ b σ' :
  (m ≫= f) σ = (Ok b, σ') → ∃ a σ1, m σ = (Ok a, σ1) ∧ f a σ1 = (Ok b, σ').
Proof. unfold mbind, Exec_bind. destruct (m σ) as [[a|e] σ1]; [eauto | done]. Qed.

Lemma keep_rows_Ok (rows old : list (meta_data * saved S)) σ σ' :
  for_each_exec (λ _ row, keep_row 0 row) rows () σ = (Ok (), σ') →
  savers σ = [old] → savers σ' = [old ++ rows].
Proof.
  revert σ old. induction rows as [|row rows IH]; intros σ old Hrun Hsav.
  - cbn in Hrun. injection Hrun as <-. by rewrite app_nil_r.
  - cbn [for_each_exec] in Hrun. apply bind_Ok_inv in Hrun as ([] & σ1 & Hk & Hrest).
    unfold keep_row in Hk. rewrite Hsav in Hk. cbn in Hk. injection Hk as <-.
    apply (IH _ (old ++ [row])) in Hrest; [|done].
    by rewrite Hrest, <- app_assoc.
Qed.

Lemma ClassificationSaver_call_Ok st σ st' σ' b metas rows dev y old :
  ClassificationSaver_call script_saver st σ = (Ok st', σ') →
  batch st = Some b → b !! 2 = Some (MetaBatch metas) →
  output st = Some (ScoreTensor rows dev, y) → savers σ = [old] →
  st' = st
  ∧ ∃ classes, map_outcome argmax_row rows = Ok classes
               ∧ savers σ' = [old ++ zip metas (SavedClass <$> classes)].
Proof.
  intros Hcall Hb Hmeta Hout Hsav. unfold ClassificationSaver_call in Hcall.
  apply bind_Ok_inv in Hcall as (kept & σ1 & Hkept & Hcall).
  apply bind_Ok_inv in Hcall as ([] & σ2 & Hkeep & Hret).
  injection Hret as <- <-. split; [done|].
  unfold liftE in Hkept. injection Hkept as Hkept <-.
  rewrite Hb, Hout in Hkept.
  cbn [from_option mbind outcome_bind batch_transform output_transform script_saver] in Hkept.
  unfold saver_batch_transform, saver_output_transform, argmax in Hkept.
  rewrite (getitem_lookup _ _ _ Hmeta) in Hkept.
  cbn [fst mbind outcome_bind] in Hkept. rewrite decide_True in Hkept by done.
  destruct (map_outcome argmax_row rows) as [classes|]; [|done].
  cbn [mbind outcome_bind unstack] in Hkept.
  case_decide as Hlen; [|done]. injection Hkept as <-.
  exists classes. split; [done|]. by apply (keep_rows_Ok _ _ σ).
Qed.

Lemma Accuracy_update_Ok name st σ st' σ' :
  Accuracy_update name st σ = (Ok st', σ') →
  σ' = σ ∧ batch st' = batch st ∧ output st' = output st.
Proof.
  unfold Accuracy_update, liftE. intros [= Hupd <-]. split; [done|].
  destruct (output st) as [[y_pred y]|]; [|done].
  destruct y; try done.
  destruct (argmax y_pred 1) as [indices|]; [|done]. cbn in Hupd.
  destruct indices; try done.
  case_decide; [|done].
  destruct (default (0, 0) (metrics st !! name)). by injection Hupd as <-.
Qed.

Lemma script_evaluator_handlers_list :
  event_handlers script_evaluator
  = [(EPOCH_STARTED, Accuracy_reset metric_name);
     (ITERATION_COMPLETED, Accuracy_update metric_name);
     (ITERATION_COMPLETED, StatsHandler_log);
     (EPOCH_COMPLETED, StatsHandler_log);
     (ITERATION_COMPLETED, ClassificationSaver_call script_saver);
     (STARTED, CheckpointLoader_call (MkCheckpointLoader checkpoint_path [("net"%string, 0)]))].
Proof. reflexivity. Qed.

Lemma StatsHandler_log_Ok st σ st' σ' :
  StatsHandler_log st σ = (Ok st', σ') → st' = st ∧ savers σ' = savers σ.
Proof. unfold StatsHandler_log. cbn. by intros [= <- <-]. Qed.

Lemma fire_ITERATION_COMPLETED_Ok st σ st' σ' b metas rows dev y old :
  fire_event script_evaluator ITERATION_COMPLETED st σ = (Ok st', σ') →
  batch st = Some b → b !! 2 = Some (MetaBatch metas) →
  output st = Some (ScoreTensor rows dev, y) → savers σ = [old] →
  ∃ classes, map_outcome argmax_row rows = Ok classes
             ∧ savers σ' = [old ++ zip metas (SavedClass <$> classes)].
Proof.
  intros Hfire Hb Hmeta Hout Hsav. unfold fire_event in Hfire.
  rewrite script_evaluator_handlers_list in Hfire. cbn [for_each_exec] in Hfire.
  apply bind_Ok_inv in Hfire as (st1 & σ1 & H1 & Hfire).
  rewrite decide_False in H1 by done. injection H1 as <- <-.
  apply bind_Ok_inv in Hfire as (st2 & σ2 & H2 & Hfire).
  rewrite decide_True in H2 by done.
  apply Accuracy_update_Ok in H2 as (-> & Hb2 & Hout2).
  apply bind_Ok_inv in Hfire as (st3 & σ3 & H3 & Hfire).
  rewrite decide_True in H3 by done.
  apply StatsHandler_log_Ok in H3 as (-> & Hsav3).
  apply bind_Ok_inv in Hfire as (st4 & σ4 & H4 & Hfire).
  rewrite decide_False in H4 by done. injection H4 as <- <-.
  apply bind_Ok_inv in Hfire as (st5 & σ5 & H5 & Hfire).
  rewrite decide_True in H5 by done.
  apply (ClassificationSaver_call_Ok _ _ _ _ b metas rows dev y old) in H5
    as (-> & classes & Hcl & Hsav5); [| congruence | done | congruence | congruence].
  apply bind_Ok_inv in Hfire as (st6 & σ6 & H6 & Hfire).
  rewrite decide_False in H6 by done. injection H6 as <- <-.
  injection Hfire as <- <-. eauto.
Qed.

(** Outside of the iterations the handlers leave the savers as they are. *)
Lemma fire_event_savers (event_name : Events) st σ :
  event_name ≠ ITERATION_COMPLETED → event_name ≠ STARTED →
  savers (fire_event script_evaluator event_name st σ).2 = savers σ.
Proof.
  intros Hit Hstart. unfold fire_event. rewrite script_evaluator_handlers_list.
  destruct event_name; done.
Qed.

Lemma fire_ITERATION_STARTED st σ :
  fire_event script_evaluator ITERATION_STARTED st σ = (Ok st, σ).
Proof. reflexivity. Qed.

(** The process function leaves the savers as they are. *)
Lemma inference_savers (b : list (value V S)) σ :
  savers (_inference 0 (Some device) true prepare_batch b σ).2 = savers σ.
Proof.
  unfold _inference, module_eval, module_call, get_module, set_module, liftE, tell,
    mbind, Exec_bind, mret, Exec_ret.
  repeat case_match; simplify_eq; done.
Qed.

(** The process function on a fetched batch: the scores of the network on
    the voxel blocks of the batch, in their order. *)
Lemma inference_Ok params sh (blocks : list V) values metas σ out σ' :
  evaluating params σ →
  _inference 0 (Some device) true prepare_batch
    [Tensor sh blocks cpu; IntTensor values cpu; MetaBatch metas] σ = (Ok out, σ') →
  ∃ dev y, out = (ScoreTensor (network_scores params <$> blocks) dev, y).
Proof.
  intros Hσ Hout. unfold _inference in Hout.
  apply bind_Ok_inv in Hout as ([] & σ1 & Heval & Hout).
  assert (evaluating params σ1) as Hσ1.
  { pose proof (spec_module_eval params (λ _, True) σ Hσ) as (Hinv & _).
    by rewrite Heval in Hinv. }
  apply bind_Ok_inv in Hout as ([x y] & σ2 & Hprep & Hout).
  unfold liftE in Hprep. injection Hprep as Hprep <-.
  unfold prepare_batch in Hprep.
  cbn [getitem lookup list_lookup mbind outcome_bind] in Hprep.
  unfold _prepare_batch, convert_tensor, tensor_to in Hprep.
  destruct (device_available device); [|done].
  cbn [mbind outcome_bind] in Hprep. injection Hprep as <- <-.
  apply bind_Ok_inv in Hout as (y_pred & σ3 & Hcall & Hret).
  injection Hret as <- <-.
  destruct (get_module_evaluating params σ1 Hσ1) as (m & Hget & Hm & Hp & Hd & Hi & Ho).
  unfold module_call in Hcall. rewrite (bind_Ok _ _ _ _ _ Hget) in Hcall.
  destruct sh as [|c spatial]; [done|]. case_decide; [|done].
  apply bind_Ok_inv in Hcall as ([] & σ4 & _ & Hret). injection Hret as <- <-.
  eexists _, _. f_equal. f_equal. rewrite Hp, Ho. done.
Qed.

(** The rows of a batch: the metadata of its samples with the argmax of
    their scores. *)
Lemma output_rows_zip params (indices : list nat) (xs : list (ndarray V * Z * meta_data))
  (classes : list Z) :
  Forall2 (sample_at val_ds) indices xs →
  Forall2 (λ x z, argmax_row (network_scores params (voxels x.1.1)) = Ok z) xs classes →
  Forall2 (output_row params) indices (zip (snd <$> xs) (SavedClass <$> classes)).
Proof.
  intros Hxs. revert classes.
  induction Hxs as [|i x indices xs Hx _ IH]; intros classes Hcl.
  - inversion Hcl. constructor.
  - inversion Hcl as [|? z ? classes' Hz Hcl']; subst.
    cbn. constructor; [|by apply IH]. by exists x, z.
Qed.

(** An iteration that returns has added one row per sample of its batch:
    the metadata of the sample and the argmax of the scores of the network
    on its transformed image. *)
Lemma run_iteration_rows params st indices σ st' σ' old :
  run_iteration script_evaluator val_loader st indices σ = (Ok st', σ') →
  evaluating params σ → savers σ = [old] →
  ∃ new, savers σ' = [old ++ new] ∧ Forall2 (output_row params) indices new.
Proof.
  intros Hrun Hσ Hsav. unfold run_iteration in Hrun.
  apply bind_Ok_inv in Hrun as (b & σ1 & Hfetch & Hrun).
  unfold liftE in Hfetch. injection Hfetch as Hfetch <-.
  apply bind_Ok_inv in Hrun as ([] & σ2 & Htell & Hrun). injection Htell as <-.
  apply bind_Ok_inv in Hrun as (st1 & σ3 & Hstart & Hrun).
  rewrite fire_ITERATION_STARTED in Hstart. injection Hstart as <- <-.
  apply bind_Ok_inv in Hrun as (out & σ4 & Hout & Hrun).
  change (process_function script_evaluator b)
    with (_inference 0 (Some device) true prepare_batch b) in Hout.
  pose proof (inference_savers b (emit (BatchFetched indices) σ)) as Hsav4.
  rewrite Hout in Hsav4. cbn [snd savers emit] in Hsav4.
  destruct (fetch_Ok val_loader indices b eq_refl Hfetch) as (xs & sh & Hxs & Hb).
  rewrite Hb in Hout, Hrun.
  assert (evaluating params (emit (BatchFetched indices) σ)) as Hσ1
    by (by apply evaluating_emit).
  destruct (inference_Ok params _ _ _ _ _ _ _ Hσ1 Hout) as (dev & y & Hy).
  rewrite Hy in Hrun.
  eapply (fire_ITERATION_COMPLETED_Ok _ _ _ _ b (snd <$> xs) _ dev y old) in Hrun
    as (classes & Hcl & Hsav');
    [| by rewrite Hb | by rewrite Hb | done | cbn [savers emit] in *; congruence].
  exists (zip (snd <$> xs) (SavedClass <$> classes)). split; [done|].
  apply output_rows_zip; [done|].
  apply map_outcome_Ok in Hcl. rewrite !Forall2_fmap_l in Hcl. exact Hcl.
Qed.

Lemma run_iterations_rows params (batches : list (list nat)) st σ st' σ' old :
  for_each_exec (run_iteration script_evaluator val_loader) batches st σ = (Ok st', σ') →
  scored params st → evaluating params σ → savers σ = [old] →
  ∃ new, savers σ' = [old ++ new] ∧ Forall2 (output_row params) (concat batches) new.
Proof.
  revert st σ old.
  induction batches as [|indices batches IH]; intros st σ old Hrun Hst Hσ Hsav.
  - injection Hrun as <- <-. exists []. rewrite app_nil_r. split; [done|]. constructor.
  - cbn [for_each_exec] in Hrun.
    apply bind_Ok_inv in Hrun as (st1 & σ1 & Hiter & Hrun).
    destruct (run_iteration_rows params _ _ _ _ _ old Hiter Hσ Hsav) as (new & Hsav1 & Hnew).
    destruct (run_iteration_result params st indices σ Hst Hσ) as (Hσ1 & _ & Hst1).
    rewrite Hiter in Hσ1, Hst1. cbn [fst snd] in Hσ1, Hst1.
    destruct (IH _ _ _ Hrun (Hst1 _ eq_refl) Hσ1 Hsav1) as (new' & Hsav' & Hnew').
    exists (new ++ new'). rewrite Hsav', app_assoc. split; [done|].
    cbn [concat]. by apply Forall2_app.
Qed.

(** An evaluation pass that returns has added one row per sample of the
    dataset, in the order of the dataset. *)
Lemma evaluation_pass_rows params st σ st' σ' old :
  evaluation_pass script_evaluator val_loader st σ = (Ok st', σ') →
  scored params st → evaluating params σ → savers σ = [old] →
  ∃ new, savers σ' = [old ++ new]
         ∧ Forall2 (output_row params) (concat (DataLoader_iter val_loader)) new.
Proof.
  intros Hpass Hst Hσ Hsav. unfold evaluation_pass in Hpass.
  apply bind_Ok_inv in Hpass as (st1 & σ1 & H1 & Hpass).
  pose proof (fire_event_savers EPOCH_STARTED st σ) as Hsav1.
  rewrite H1 in Hsav1. cbn [snd] in Hsav1.
  destruct (spec_fire_event params EPOCH_STARTED st) with (σ := σ) as (Hσ1 & _ & Hst1);
    [done|done|done|].
  rewrite H1 in Hσ1, Hst1. cbn [fst snd] in Hσ1, Hst1.
  apply bind_Ok_inv in Hpass as (st2 & σ2 & H2 & Hpass).
  destruct (run_iterations_rows params _ _ _ _ _ old H2) as (new & Hsav2 & Hnew);
    [by apply Hst1 | done | by rewrite Hsav1 |].
  apply bind_Ok_inv in Hpass as (st3 & σ3 & H3 & Hpass).
  pose proof (fire_event_savers EPOCH_COMPLETED st2 σ2) as Hsav3.
  rewrite H3 in Hsav3. cbn [snd] in Hsav3.
  pose proof (fire_event_savers COMPLETED st3 σ3) as Hsav4.
  rewrite Hpass in Hsav4. cbn [snd] in Hsav4.
  exists new. split; [|done]. rewrite Hsav4, Hsav3; done.
Qed.

(** ** The script from its first statement to its last *)

Lemma fire_STARTED st :
  fire_event script_evaluator STARTED st store_at_run
  = match checkpoint_net with
    | Ok params => (Ok st, store_loaded params)
    | Raise e => (Raise e, store_at_run)
    end.
Proof.
  unfold checkpoint_net, torch_load, dict_getitem, fire_event.
  cbn -[checkpoint_path].
  unfold CheckpointLoader_call, torch_load, liftE, dict_getitem, mbind, Exec_bind.
  cbn -[checkpoint_path].
  destruct (checkpoint_files w checkpoint_path) as [checkpoint|]; [|done].
  cbn -[checkpoint_path].
  destruct (checkpoint !! "net"%string); done.
Qed.

Lemma Engine_run_at_run :
  Engine_run script_evaluator val_loader store_at_run
  = match checkpoint_net with
    | Ok params =>
        evaluation_pass script_evaluator val_loader (MkState 0 None None ∅)
                        (store_loaded params)
    | Raise e => (Raise e, store_at_run)
    end.
Proof.
  change (Engine_run script_evaluator val_loader)
    with (fire_event script_evaluator STARTED (MkState 0 None None ∅)
            ≫= evaluation_pass script_evaluator val_loader).
  pose proof (fire_STARTED (MkState 0 None None ∅)) as Hstart.
  destruct checkpoint_net as [params|e].
  - by rewrite (bind_Ok _ _ _ _ _ Hstart).
  - by rewrite (bind_Raise _ _ _ _ _ Hstart).
Qed.

Lemma device_available_cuda0 :
  device_available device = bool_decide (0 < cuda_device_count w).
Proof. reflexivity. Qed.

(** Without a CUDA device the script stops where the evaluator is created. *)
Lemma main_no_device :
  device_available device = false →
  main empty_store = (Raise (RuntimeError "device is not available"), store_created).
Proof.
  intros Hdev. unfold main.
  rewrite (bind_Ok _ _ _ 0 store_created) by done.
  apply bind_Raise. unfold create_supervised_evaluator.
  apply bind_Raise. unfold module_to.
  rewrite (bind_Ok _ _ _ (NnModule (initial_parameters w 1 2) cpu true 1 2) store_created)
    by done.
  by rewrite Hdev.
Qed.

(** With a CUDA device the script reaches [evaluator.run] with the evaluator
    and the saver described above, and finalizes the saver when the run
    returns. *)
Lemma main_with_device :
  device_available device = true →
  main empty_store
  = (state ← Engine_run script_evaluator val_loader;
     _ ← ClassificationSaver_finalize script_saver;
     mret state) store_at_run.
Proof.
  intros Hdev. unfold main.
  rewrite (bind_Ok _ _ _ 0 store_created) by done.
  rewrite (bind_Ok _ _ _
             (foldl (λ engine '(name, m), metric_attach m engine name)
                    (MkEngine (_inference 0 (Some device) true prepare_batch) [])
                    val_metrics)
             (MkStore [NnModule (initial_parameters w 1 2) (cuda 0) true 1 2] []
                      [ModuleMoved 0 (cuda 0)])).
  - rewrite (bind_Ok _ _ _ script_saver store_at_run) by done.
    done.
  - unfold create_supervised_evaluator.
    rewrite (bind_Ok _ _ _ ()
               (MkStore [NnModule (initial_parameters w 1 2) (cuda 0) true 1 2] []
                        [ModuleMoved 0 (cuda 0)])); [done|].
    unfold module_to.
    rewrite (bind_Ok _ _ _ (NnModule (initial_parameters w 1 2) cpu true 1 2) store_created)
      by done.
    by rewrite Hdev.
Qed.

Lemma evaluating_store_loaded params : evaluating params (store_loaded params).
Proof.
  split.
  - eexists. split; [done|]. done.
  - exists []. split; [done|]. constructor.
Qed.

(** The script ends in one of the four ways of [script_result], in every
    world. *)
Lemma main_result : script_result (main empty_store).1 (main empty_store).2.
Proof.
  destruct (device_available device) eqn:Hdev.
  2: { rewrite (main_no_device Hdev). by constructor. }
  rewrite (main_with_device Hdev).
  pose proof Engine_run_at_run as Hrun.
  destruct checkpoint_net as [params|e] eqn:Hck.
  2: { rewrite (bind_Raise _ _ _ _ _ Hrun). by apply no_checkpoint. }
  pose proof (evaluation_pass_result params (MkState 0 None None ∅) (store_loaded params))
    as Hpass.
  destruct (evaluation_pass script_evaluator val_loader (MkState 0 None None ∅)
              (store_loaded params)) as [[st|e] σ] eqn:Hev.
  - destruct Hpass as (Hinv & (evs & Htr & Hevs & Hpre & Hall) & _);
      [done | apply evaluating_store_loaded |].
    cbn [fst snd] in Hinv, Htr, Hall.
    rewrite (bind_Ok _ _ _ _ _ Hrun).
    destruct Hinv as [Hmod (rows & Hsav & Hrows)].
    rewrite (bind_Ok _ _ _ () (emit (OutputWritten "tempdir" rows) σ)).
    + cbn [fst snd mret Exec_ret].
      apply (evaluation_completed params st σ evs rows); try done.
      * split; [done|]. eauto.
      * by apply Hall.
      * destruct (evaluation_pass_rows params _ _ _ _ [] Hev) as (new & Hnew & Hmeta);
          [done | apply evaluating_store_loaded | done |].
        rewrite Hsav in Hnew. by injection Hnew as ->.
    + unfold ClassificationSaver_finalize. cbn. by rewrite Hsav.
  - destruct Hpass as (Hinv & (evs & Htr & Hevs & Hpre & Hall) & _);
      [done | apply evaluating_store_loaded |].
    cbn [fst snd] in Hinv, Htr.
    rewrite (bind_Raise _ _ _ _ _ Hrun). cbn [fst snd].
    by apply (evaluation_failed params e σ evs).
Qed.

(** ** The events of the evaluation, the device, the names of the rows *)

(** The device does not depend on what is available: there is no fallback. *)
Lemma device_is_cuda0 : device = cuda 0 ∧ (device_available device = false ↔ cuda_device_count w = 0).
Proof.
  split; [done|]. rewrite device_available_cuda0.
  rewrite bool_decide_eq_false. lia.
Qed.

Lemma evaluation_event_no_output params (evs : list (event S P)) :
  Forall (evaluation_event params) evs → Forall (λ e, ¬ writes_output e) evs.
Proof. intros Hevs. eapply Forall_impl; [done|]. intros e He. destruct e; cbn in *; tauto. Qed.

Lemma evaluation_event_after_load params (evs : list (event S P)) :
  Forall (evaluation_event params) evs →
  Forall (λ e, ¬ loads_parameters e ∧ forward_with params e) evs.
Proof. intros Hevs. eapply Forall_impl; [done|]. intros e He. destruct e; cbn in *; tauto. Qed.

Lemma evaluation_event_argmax params (evs : list (event S P)) :
  Forall (evaluation_event params) evs → Forall (persists_argmax params) evs.
Proof. intros Hevs. eapply Forall_impl; [done|]. intros e He. destruct e; cbn in *; tauto. Qed.

Lemma persists_argmax_class_indices params (e : event S P) :
  persists_argmax params e → persists_class_indices e.
Proof.
  destruct e; cbn; try done.
  - apply argmax_class_index.
  - intros Hrows. eapply Forall_impl; [done|]. intros row. apply argmax_class_index.
Qed.

Lemma images_NoDup : NoDup images.
Proof. apply (bool_decide_unpack _). by vm_compute. Qed.

(** The rows of the ten samples are the rows of the ten image files. *)
Lemma rows_of_images params (rows : list (meta_data * saved S)) :
  Forall2 (output_row params) (concat (DataLoader_iter val_loader)) rows →
  Forall2 (λ path row, ∃ raw img z,
             nifti_files w path = Some raw
             ∧ val_transforms raw = Ok img
             ∧ argmax_row (network_scores params (voxels img)) = Ok z
             ∧ row = (MetaData path (shape raw), SavedClass z))
          images rows.
Proof.
  change (concat (DataLoader_iter val_loader)) with (seq 0 (length images)).
  intros Hrows. apply Forall2_same_length_lookup. split.
  - apply Forall2_length in Hrows. by rewrite length_seq in Hrows.
  - intros i path row Hpath Hrow.
    assert (seq 0 (length images) !! i = Some i) as Hi.
    { apply lookup_seq. split; [done|]. by eapply lookup_lt_Some. }
    destruct (Forall2_lookup_lr _ _ _ _ _ _ Hrows Hi Hrow)
      as ([[img label] m] & z & (path' & raw & Hpath' & Hraw & Himg & _ & Hm) & Hz & ->).
    change (image_files val_ds) with images in Hpath'.
    assert (path' = path) as -> by congruence.
    cbn in Himg, Hm, Hz. subst m. by exists raw, img, z.
Qed.

(** ** Completion: in a world that has what the script needs, it returns *)

Lemma returns_ret {A} inv (a : A) (R : A → Prop) : R a → returns inv (mret a) R.
Proof. intros HR σ Hσ. by exists a, σ. Qed.

Lemma returns_bind {A B} inv (m : Exec S P A) (f : A → Exec S P B) (R : A → Prop)
  (R' : B → Prop) :
  returns inv m R → (∀ a, R a → returns inv (f a) R') → returns inv (m ≫= f) R'.
Proof.
  intros Hm Hf σ Hσ. destruct (Hm σ Hσ) as (a & σ1 & Hmσ & Hσ1 & Ha).
  destruct (Hf a Ha σ1 Hσ1) as (b & σ2 & Hfσ & Hσ2 & Hb).
  exists b, σ2. by rewrite (bind_Ok _ _ _ _ _ Hmσ).
Qed.

Lemma returns_liftE {A} inv (m : outcome A) (a : A) (R : A → Prop) :
  m = Ok a → R a → returns inv (liftE m) R.
Proof. intros -> HR σ Hσ. by exists a, σ. Qed.

Lemma returns_for_each_exec {A B} inv (f : B → A → Exec S P B) (R : B → Prop) (xs : list A) :
  (∀ acc x, x ∈ xs → R acc → returns inv (f acc x) R) →
  ∀ acc, R acc → returns inv (for_each_exec f xs acc) R.
Proof.
  induction xs as [|x xs IH]; intros Hf acc Hacc; cbn [for_each_exec].
  - by apply returns_ret.
  - eapply returns_bind.
    + apply Hf; [by left | done].
    + intros acc' Hacc'. apply IH; [|done].
      intros acc'' y Hy. apply Hf. by right.
Qed.

Section Returning.
Variable params : P.
#[local] Abbreviation inv := (evaluating params).

Lemma returns_tell (e : event S P) : returns inv (tell e) (λ _, True).
Proof. intros σ Hσ. by exists (), (emit e σ). Qed.

Lemma returns_module_eval : returns inv (module_eval 0) (λ _, True).
Proof.
  intros σ Hσ.
  destruct (get_module_evaluating params σ Hσ) as (m & Hget & Hm & Hp & Hd & Hi & Ho).
  unfold module_eval. rewrite (bind_Ok _ _ _ _ _ Hget).
  eexists (), _. split; [done|]. split; [|done].
  destruct Hσ as [_ Hsav]. split; [|done]. cbn. rewrite Hm. cbn. eauto 10.
Qed.

Lemma returns_module_call (d1 d2 d3 : nat) (blocks : list V) :
  returns inv (module_call 0 (Tensor [1; d1; d2; d3] blocks (cuda 0)))
    (λ y_pred, ∃ rows, y_pred = ScoreTensor rows (cuda 0)
                       ∧ length rows = length blocks
                       ∧ Forall (λ row, ∃ v, row = network_scores params v) rows).
Proof.
  intros σ Hσ.
  destruct (get_module_evaluating params σ Hσ) as (m & Hget & Hm & Hp & Hd & Hi & Ho).
  unfold module_call. rewrite (bind_Ok _ _ _ _ _ Hget).
  rewrite decide_True by (by rewrite Hd, Hi).
  eexists _, _. split; [done|]. split; [done|].
  eexists. split; [done|]. split; [by rewrite length_fmap|].
  apply Forall_fmap, Forall_forall. intros v _. cbn.
  exists v. by rewrite Hp, Ho.
Qed.

Lemma returns_keep_row (row : meta_data * saved S) :
  argmax_class params row.2 → returns inv (keep_row 0 row) (λ _, True).
Proof.
  intros Hrow σ [Hmod (rows & Hsav & Hrows)].
  unfold keep_row. rewrite Hsav. eexists (), _. split; [done|]. split; [|done].
  split; [done|]. exists (rows ++ [row]). split; [done|].
  apply Forall_app. split; [done|]. by constructor.
Qed.

Lemma argmax_scores (rows : list (list S)) (dev : torch_device) :
  Forall (λ row, ∃ v, row = network_scores params v) rows →
  ∃ classes, argmax (ScoreTensor rows dev) 1 = Ok (IntTensor classes dev)
             ∧ length classes = length rows
             ∧ Forall (λ z, argmax_class params (SavedClass z)) classes.
Proof.
  intros Hrows.
  destruct (saver_output_transform_classes rows dev (MetaBatch [])
              (network_rows_two params rows Hrows)) as (classes & Hcl & Hall).
  exists classes. split; [exact Hcl|]. split.
  - symmetry. by eapply Forall2_length.
  - apply Forall_forall. intros z Hz.
    apply list_elem_of_lookup in Hz as (i & Hi).
    destruct (Forall2_lookup_r _ _ _ _ _ Hall Hi) as (row & Hrow & Hz & _).
    rewrite Forall_forall in Hrows.
    destruct (Hrows row) as (v & ->); [by eapply list_elem_of_lookup_2|].
    by exists v, z.
Qed.

Lemma returns_Accuracy_update name st :
  processed params st → returns inv (Accuracy_update name st) (processed params).
Proof.
  intros (n & b & rows & dev & values & dev' & Hb & Hbatch & Hout & Hrows & Hvalues & Hlen).
  destruct (argmax_scores rows dev Hlen) as (classes & Hcl & Hclen & _).
  unfold Accuracy_update. rewrite Hout, Hcl. cbn [mbind outcome_bind].
  rewrite decide_True by congruence.
  destruct (default (0, 0) (metrics st !! name)) as [c seen].
  eapply returns_liftE; [done|].
  exists n, b, rows, dev, values, dev'. done.
Qed.

Lemma returns_StatsHandler_log st (R : State → Prop) :
  R st → returns inv (StatsHandler_log st) R.
Proof.
  intros Hst. unfold StatsHandler_log. eapply returns_bind; [apply returns_tell|].
  intros _ _. by apply returns_ret.
Qed.

Lemma returns_ClassificationSaver_call st :
  processed params st → returns inv (ClassificationSaver_call script_saver st) (processed params).
Proof.
  intros Hst. pose proof Hst as Hst'.
  destruct Hst' as (n & b & rows & dev & values & dev' & Hb & Hbatch & Hout & Hrows
                    & Hvalues & Hlen).
  destruct Hbatch as (blocks & values' & metas & -> & _ & _ & Hmetas).
  destruct (argmax_scores rows dev Hlen) as (classes & Hcl & Hclen & Hcls).
  unfold ClassificationSaver_call.
  eapply returns_bind with (R := λ kept, Forall (λ row, argmax_class params row.2) kept).
  - eapply (returns_liftE _ _ (zip metas (SavedClass <$> classes))).
    + rewrite Hb, Hout. cbn [from_option mbind outcome_bind].
      change (batch_transform script_saver) with saver_batch_transform.
      change (output_transform script_saver) with saver_output_transform.
      unfold saver_batch_transform, saver_output_transform.
      rewrite (getitem_lookup _ 2 (MetaBatch metas)) by done.
      cbn [fst mbind outcome_bind]. rewrite Hcl. cbn [mbind outcome_bind unstack].
      rewrite decide_True; [done|]. rewrite length_fmap. congruence.
    + apply Forall_forall. intros [m p] Hin. cbn.
      apply elem_of_zip_r, list_elem_of_fmap in Hin as (z & -> & Hz).
      rewrite Forall_forall in Hcls. by apply Hcls.
  - intros kept Hkept. eapply returns_bind with (R := λ _, True).
    + apply returns_for_each_exec; [|done].
      intros [] row Hin _. rewrite Forall_forall in Hkept.
      apply returns_keep_row. by apply Hkept.
    + intros _ _. by apply returns_ret.
Qed.

Lemma handlers_after_iteration :
  Forall (λ '(name, handler),
            name = ITERATION_COMPLETED →
            ∀ st, processed params st → returns inv (handler st) (processed params))
         (event_handlers script_evaluator).
Proof.
  rewrite script_evaluator_handlers_list.
  repeat (apply List.Forall_cons; [|]); [..|apply List.Forall_nil]; try done.
  - intros _ st Hst. by apply returns_Accuracy_update.
  - intros _ st Hst. by apply returns_StatsHandler_log.
  - intros _ st Hst. by apply returns_ClassificationSaver_call.
Qed.

Lemma handlers_outside_iteration :
  Forall (λ '(name, handler),
            name ≠ ITERATION_COMPLETED → name ≠ STARTED →
            ∀ st, returns inv (handler st) (λ _, True))
         (event_handlers script_evaluator).
Proof.
  rewrite script_evaluator_handlers_list.
  repeat (apply List.Forall_cons; [|]); [..|apply List.Forall_nil]; try done.
  - intros _ _ st. by apply returns_ret.
  - intros _ _ st. by apply returns_StatsHandler_log.
Qed.

Lemma returns_fire_ITERATION_COMPLETED st :
  processed params st →
  returns inv (fire_event script_evaluator ITERATION_COMPLETED st) (processed params).
Proof.
  intros Hst. unfold fire_event. apply returns_for_each_exec; [|done].
  intros acc [name handler] Hin Hacc.
  pose proof handlers_after_iteration as Hall. rewrite Forall_forall in Hall.
  specialize (Hall _ Hin). cbn in Hall.
  case_decide; [|by apply returns_ret]. by apply Hall.
Qed.

Lemma returns_fire_event (event_name : Events) st :
  event_name ≠ ITERATION_COMPLETED → event_name ≠ STARTED →
  returns inv (fire_event script_evaluator event_name st) (λ _, True).
Proof.
  intros Hit Hstart. unfold fire_event. apply returns_for_each_exec; [|done].
  intros acc [name handler] Hin _.
  pose proof handlers_outside_iteration as Hall. rewrite Forall_forall in Hall.
  specialize (Hall _ Hin). cbn in Hall.
  case_decide; [|by apply returns_ret]. apply Hall; congruence.
Qed.

End Returning.

(** *** Fetching a batch *)

Lemma default_collate_samples (sh : list nat) (xs : list (ndarray V * Z * meta_data)) :
  xs ≠ [] → Forall (λ x, shape x.1.1 = sh) xs →
  default_collate (sample_of <$> xs)
  = Ok [Tensor sh ((λ x, voxels x.1.1) <$> xs) cpu;
        IntTensor ((λ x, x.1.2) <$> xs) cpu;
        @MetaBatch V S (snd <$> xs)].
Proof.
  intros Hne Hsh. rewrite (default_collate_sample_of xs Hne).
  rewrite (collate_column_images sh).
  - cbn [mbind outcome_bind]. by rewrite <- list_fmap_compose.
  - by destruct xs.
  - by apply Forall_fmap.
Qed.

Section Ready.
Hypothesis Hready : world_ready.

Lemma val_ds_getitem_ready (i : nat) :
  i < 10 →
  ∃ x, NiftiDataset_getitem val_ds i = Ok (sample_of x)
       ∧ shape x.1.1 = [1; 96; 96; 96].
Proof.
  intros Hi. destruct Hready as (_ & _ & Hfiles).
  destruct (lookup_lt_is_Some_2 images i) as [path Hpath]; [done|].
  destruct (lookup_lt_is_Some_2 labels i) as [label Hlabel]; [done|].
  destruct (Hfiles path) as (raw & Hraw & H3); [by eapply list_elem_of_lookup_2|].
  destruct (val_transforms_3d raw H3) as (img & Himg & Hsh).
  exists (img, label, MetaData path (shape raw)). split; [|done].
  unfold NiftiDataset_getitem, load_nifti.
  change (image_files val_ds) with images. change (ds_labels val_ds) with labels.
  change (ds_transform val_ds) with val_transforms.
  rewrite (getitem_lookup _ _ _ Hpath). cbn [mbind outcome_bind]. rewrite Hraw.
  rewrite (getitem_lookup _ _ _ Hlabel). cbn [mbind outcome_bind]. rewrite Himg.
  done.
Qed.

Lemma fetch_ready (indices : list nat) :
  indices ≠ [] → Forall (λ i, i < 10) indices →
  ∃ b, fetch val_loader indices = Ok b ∧ loaded_batch (length indices) b.
Proof.
  intros Hne Hall.
  assert (∃ xs, map_outcome (NiftiDataset_getitem val_ds) indices = Ok (sample_of <$> xs)
                ∧ length xs = length indices
                ∧ Forall (λ x, shape x.1.1 = [1; 96; 96; 96]) xs) as (xs & Hxs & Hlen & Hsh).
  { clear Hne. induction Hall as [|i indices Hi _ (xs & Hxs & Hlen & Hsh)].
    - exists []. done.
    - destruct (val_ds_getitem_ready i Hi) as (x & Hx & Hxsh).
      exists (x :: xs). cbn. rewrite Hx. cbn. rewrite Hxs. cbn.
      split; [done|]. split; [by rewrite Hlen|]. by constructor. }
  unfold fetch. change (dataset val_loader) with val_ds. rewrite Hxs.
  cbn [mbind outcome_bind].
  rewrite (default_collate_samples [1; 96; 96; 96]); [|by destruct xs, indices|done].
  eexists. split; [done|]. eexists _, _, _. split; [done|].
  by rewrite !length_fmap.
Qed.

Lemma prepare_batch_ready (n : nat) (b : list (value V S)) :
  loaded_batch n b →
  ∃ blocks values,
    prepare_batch b (Some device) true
    = Ok (Tensor [1; 96; 96; 96] blocks (cuda 0), IntTensor values (cuda 0))
    ∧ length blocks = n ∧ length values = n.
Proof.
  intros (blocks & values & metas & -> & Hblocks & Hvalues & _).
  destruct Hready as (Hdev & _ & _).
  exists blocks, values. split; [|done].
  unfold prepare_batch. cbn [getitem lookup list_lookup mbind outcome_bind].
  unfold _prepare_batch, convert_tensor, tensor_to. rewrite Hdev. done.
Qed.

Section Iterations.
Variable params : P.
#[local] Abbreviation inv := (evaluating params).

Lemma returns_inference (n : nat) (b : list (value V S)) :
  loaded_batch n b →
  returns inv (_inference 0 (Some device) true prepare_batch b)
    (λ out, ∃ rows dev values dev',
       out = (ScoreTensor rows dev, IntTensor values dev')
       ∧ length rows = n ∧ length values = n
       ∧ Forall (λ row, ∃ v, row = network_scores params v) rows).
Proof.
  intros Hb. destruct (prepare_batch_ready n b Hb) as (blocks & values & Hprep & Hbl & Hval).
  unfold _inference. eapply returns_bind; [apply returns_module_eval|].
  intros _ _. rewrite Hprep.
  eapply returns_bind with (R := λ xy, xy = (Tensor [1; 96; 96; 96] blocks (cuda 0),
                                            IntTensor values (cuda 0))).
  { by eapply returns_liftE. }
  intros ? ->. eapply returns_bind; [apply returns_module_call|].
  intros y_pred (rows & -> & Hrows & Hlen). apply returns_ret.
  exists rows, (cuda 0), values, (cuda 0). split; [done|]. split; [congruence|]. done.
Qed.

Lemma returns_run_iteration st (indices : list nat) :
  indices ≠ [] → Forall (λ i, i < 10) indices →
  returns inv (run_iteration script_evaluator val_loader st indices) (λ _, True).
Proof.
  intros Hne Hall σ Hσ.
  destruct (fetch_ready indices Hne Hall) as (b & Hfetch & Hb).
  unfold run_iteration. rewrite Hfetch.
  rewrite (bind_Ok _ _ _ b σ) by done.
  rewrite (bind_Ok _ _ _ () (emit (BatchFetched indices) σ)) by done.
  rewrite (bind_Ok _ _ _ _ _ (fire_ITERATION_STARTED _ _)).
  cbn [iteration batch output metrics].
  destruct (returns_inference _ b Hb (emit (BatchFetched indices) σ))
    as (out & σ1 & Hout & Hσ1 & rows & dev & values & dev' & -> & Hrows & Hvalues & Hlen);
    [by apply evaluating_emit|].
  change (process_function script_evaluator b)
    with (_inference 0 (Some device) true prepare_batch b).
  rewrite (bind_Ok _ _ _ _ _ Hout).
  destruct (returns_fire_ITERATION_COMPLETED params
              (MkState (iteration st + 1) (Some b)
                       (Some (ScoreTensor rows dev, IntTensor values dev')) (metrics st))
              ) with (σ := σ1) as (st' & σ' & Hfire & Hσ' & _); [|done|].
  - exists (length indices), b, rows, dev, values, dev'. done.
  - by exists st', σ'.
Qed.

Lemma returns_evaluation_pass st :
  returns inv (evaluation_pass script_evaluator val_loader st) (λ _, True).
Proof.
  unfold evaluation_pass.
  eapply returns_bind; [by apply returns_fire_event|]. intros st1 _.
  eapply returns_bind with (R := λ _, True).
  { apply returns_for_each_exec; [|done].
    intros acc indices Hin _.
    change (DataLoader_iter val_loader) with [[0; 1]; [2; 3]; [4; 5]; [6; 7]; [8; 9]] in Hin.
    assert (indices ≠ [] ∧ Forall (λ i, i < 10) indices) as [Hne Hall].
    { repeat (apply elem_of_cons in Hin as [-> | Hin];
              [split; [done | repeat constructor; lia]|]).
      by apply elem_of_nil in Hin. }
    by apply returns_run_iteration. }
  intros st2 _.
  eapply returns_bind; [by apply returns_fire_event|]. intros st3 _.
  by apply returns_fire_event.
Qed.

End Iterations.

(** In a world that has what the script needs, the script returns. *)
Lemma main_returns : is_Ok (main empty_store).1.
Proof.
  destruct Hready as (Hdev & Hck & _).
  rewrite (main_with_device Hdev).
  pose proof Engine_run_at_run as Hrun.
  destruct checkpoint_net as [params|e]; [|done].
  destruct (returns_evaluation_pass params (MkState 0 None None ∅) (store_loaded params))
    as (st & σ & Hpass & Hσ & _); [apply evaluating_store_loaded|].
  rewrite Hpass in Hrun. rewrite (bind_Ok _ _ _ _ _ Hrun).
  destruct Hσ as [_ (rows & Hsav & _)].
  rewrite (bind_Ok _ _ _ () (emit (OutputWritten "tempdir" rows) σ)); [done|].
  unfold ClassificationSaver_finalize. cbn. by rewrite Hsav.
Qed.

End Ready.

(** ** The run, statement by statement

    With the device and the samples of a batch at hand, every statement of
    an iteration returns, and what it returns and leaves in the store is
    known exactly. *)

Lemma for_each_exec_app {A B} (f : B → A → Exec S P B) (xs ys : list A) (acc : B) σ :
  for_each_exec f (xs ++ ys) acc σ
  = (for_each_exec f xs acc ≫= for_each_exec f ys) σ.
Proof.
  revert acc σ. induction xs as [|x xs IH]; intros acc σ; [done|].
  cbn [app for_each_exec]. unfold mbind, Exec_bind.
  destruct (f acc x σ) as [[acc'|e] σ1]; [apply IH | done].
Qed.

Lemma argmax_row_network_scores params (v : V) :
  argmax_row (network_scores params v) = Ok (predicted_class params v).
Proof. reflexivity. Qed.

Lemma argmax_rows_network_scores params (vs : list V) :
  map_outcome argmax_row (network_scores params <$> vs) = Ok (predicted_class params <$> vs).
Proof. apply (map_outcome_fmap_Ok argmax_row _ (predicted_class params)). done. Qed.

Lemma zip_sample_rows params (xs : list (ndarray V * Z * meta_data)) :
  zip (snd <$> xs)
      (SavedClass <$> (predicted_class params <$> ((λ x, voxels x.1.1) <$> xs)))
  = sample_row params <$> xs.
Proof. induction xs as [|x xs IH]; [done|]. cbn. by rewrite IH. Qed.

Lemma correct_count_samples params (xs : list (ndarray V * Z * meta_data)) :
  correct_count (predicted_class params <$> ((λ x, voxels x.1.1) <$> xs))
                ((λ x, x.1.2) <$> xs)
  = correct_samples params xs.
Proof.
  unfold correct_count, correct_samples.
  induction xs as [|x xs IH]; [done|]. cbn [fmap list_fmap zip zip_with].
  rewrite !filter_cons. cbn [fst snd]. case_decide; cbn [length]; by rewrite IH.
Qed.

Lemma keep_rows_exact (rows old : list (meta_data * saved S)) σ :
  savers σ = [old] →
  for_each_exec (λ _ row, keep_row 0 row) rows () σ
  = (Ok (), MkStore (modules σ) [old ++ rows] (trace σ ++ kept_events rows)).
Proof.
  revert σ old. induction rows as [|row rows IH]; intros σ old Hsav.
  - cbn. rewrite !app_nil_r, <- Hsav. by destruct σ.
  - cbn [for_each_exec].
    rewrite (bind_Ok _ _ _ ()
               (MkStore (modules σ) [old ++ [row]]
                        (trace σ ++ [PredictionKept 0 row.1 row.2]))).
    + rewrite (IH _ (old ++ [row])) by done. cbn [modules trace kept_events fmap list_fmap].
      by rewrite <- !app_assoc.
    + unfold keep_row. by rewrite Hsav.
Qed.

Lemma Accuracy_update_exact st σ (rows : list (list S)) dev values dev' classes c n :
  output st = Some (ScoreTensor rows dev, IntTensor values dev') →
  map_outcome argmax_row rows = Ok classes → length classes = length values →
  metrics st = {[metric_name := (c, n)]} →
  Accuracy_update metric_name st σ
  = (Ok (MkState (iteration st) (batch st) (output st)
           {[metric_name := (c + correct_count classes values, n + length values)]}), σ).
Proof.
  intros Hout Hcl Hlen Hm. unfold Accuracy_update, liftE. rewrite Hout.
  cbn [argmax]. rewrite decide_True by done. rewrite Hcl. cbn [mbind outcome_bind].
  rewrite decide_True by done. rewrite Hm, lookup_singleton_eq.
  unfold default, id. cbv beta iota. by rewrite insert_singleton_eq.
Qed.

Lemma ClassificationSaver_call_exact st σ b metas (rows : list (list S)) dev y classes old :
  batch st = Some b → b !! 2 = Some (MetaBatch metas) →
  output st = Some (ScoreTensor rows dev, y) →
  map_outcome argmax_row rows = Ok classes → length metas = length classes →
  savers σ = [old] →
  ClassificationSaver_call script_saver st σ
  = (Ok st, MkStore (modules σ) [old ++ zip metas (SavedClass <$> classes)]
                    (trace σ ++ kept_events (zip metas (SavedClass <$> classes)))).
Proof.
  intros Hb Hmeta Hout Hcl Hlen Hsav. unfold ClassificationSaver_call.
  rewrite (bind_Ok _ _ _ (zip metas (SavedClass <$> classes)) σ).
  - change (saver_ref script_saver) with 0.
    rewrite (bind_Ok _ _ _ _ _ (keep_rows_exact _ old σ Hsav)). done.
  - unfold liftE. f_equal. rewrite Hb, Hout.
    cbn [from_option mbind outcome_bind batch_transform output_transform script_saver].
    unfold saver_batch_transform, saver_output_transform, argmax.
    rewrite (getitem_lookup _ _ _ Hmeta).
    cbn [fst mbind outcome_bind]. rewrite decide_True by done. rewrite Hcl.
    cbn [mbind outcome_bind unstack]. rewrite decide_True; [done|].
    by rewrite length_fmap.
Qed.

Lemma fire_ITERATION_COMPLETED_exact params st σ xs old c n :
  batch st = Some (collated xs) → output st = Some (iteration_output params xs) →
  metrics st = {[metric_name := (c, n)]} → savers σ = [old] →
  fire_event script_evaluator ITERATION_COMPLETED st σ
  = (Ok (MkState (iteration st) (batch st) (output st)
           {[metric_name := (c + correct_samples params xs, n + length xs)]}),
     MkStore (modules σ) [old ++ (sample_row params <$> xs)]
             (trace σ ++ Logged (iteration st) :: kept_events (sample_row params <$> xs))).
Proof.
  intros Hb Hout Hm Hsav.
  pose proof (argmax_rows_network_scores params ((λ x, voxels x.1.1) <$> xs)) as Hcl.
  unfold fire_event. rewrite script_evaluator_handlers_list. cbn [for_each_exec].
  rewrite (bind_Ok _ _ _ st σ) by (by rewrite decide_False).
  set (st' := MkState (iteration st) (batch st) (output st)
                {[metric_name := (c + correct_samples params xs, n + length xs)]}).
  rewrite (bind_Ok _ _ _ st' σ).
  2: { rewrite decide_True by done.
       rewrite (Accuracy_update_exact st σ _ _ _ _ _ c n Hout Hcl);
         [|by rewrite !length_fmap|done].
       by rewrite correct_count_samples, length_fmap. }
  rewrite (bind_Ok _ _ _ st' (emit (Logged (iteration st)) σ))
    by (by rewrite decide_True).
  rewrite (bind_Ok _ _ _ st' (emit (Logged (iteration st)) σ))
    by (by rewrite decide_False).
  rewrite (bind_Ok _ _ _ st'
             (MkStore (modules σ) [old ++ (sample_row params <$> xs)]
                (trace σ ++ Logged (iteration st) :: kept_events (sample_row params <$> xs)))).
  2: { rewrite decide_True by done.
       rewrite (ClassificationSaver_call_exact st' _ (collated xs) (snd <$> xs) _ _ _ _ old
                  Hb eq_refl Hout Hcl); [|by rewrite !length_fmap|done].
       rewrite zip_sample_rows. cbn [modules trace emit]. by rewrite <- app_assoc. }
  by rewrite decide_False.
Qed.

Lemma inference_exact params (xs : list (ndarray V * Z * meta_data)) σ :
  device_available device = true → evaluating params σ →
  _inference 0 (Some device) true prepare_batch (collated xs) σ
  = (Ok (iteration_output params xs),
     MkStore [NnModule params (cuda 0) false 1 2] (savers σ)
             (trace σ ++ [ForwardPass 0 params (length xs)])).
Proof.
  intros Hdev Hσ.
  destruct (get_module_evaluating params σ Hσ) as (m & Hget & Hm & Hp & Hd & Hi & Ho).
  unfold _inference.
  rewrite (bind_Ok _ _ _ () (MkStore [NnModule params (cuda 0) false 1 2] (savers σ) (trace σ))).
  2: { unfold module_eval. rewrite (bind_Ok _ _ _ _ _ Hget).
       unfold set_module. by rewrite Hm, Hp, Hd, Hi, Ho. }
  rewrite (bind_Ok _ _ _
             (Tensor [1; 96; 96; 96] ((λ x, voxels x.1.1) <$> xs) (cuda 0),
              IntTensor ((λ x, x.1.2) <$> xs) (cuda 0))
             (MkStore [NnModule params (cuda 0) false 1 2] (savers σ) (trace σ))).
  2: { unfold liftE. f_equal. unfold prepare_batch, collated.
       cbn [getitem lookup list_lookup mbind outcome_bind].
       unfold _prepare_batch, convert_tensor, tensor_to. by rewrite Hdev. }
  rewrite (bind_Ok _ _ _
             (ScoreTensor (network_scores params <$> ((λ x, voxels x.1.1) <$> xs)) (cuda 0))
             (MkStore [NnModule params (cuda 0) false 1 2] (savers σ)
                      (trace σ ++ [ForwardPass 0 params (length xs)]))); [done|].
  unfold module_call.
  rewrite (bind_Ok _ _ _ (NnModule params (cuda 0) false 1 2)
             (MkStore [NnModule params (cuda 0) false 1 2] (savers σ) (trace σ))) by done.
  cbn [module_device in_channels out_channels parameters].
  rewrite decide_True by done.
  rewrite (bind_Ok _ _ _ ()
             (emit (ForwardPass 0 params (length ((λ x, voxels x.1.1) <$> xs)))
                (MkStore [NnModule params (cuda 0) false 1 2] (savers σ) (trace σ)))) by done.
  rewrite length_fmap. done.
Qed.

(** *** The samples of the dataset of the script *)

Lemma val_transforms_Ok (raw img : ndarray V) :
  val_transforms raw = Ok img → length (shape raw) = 3 ∧ shape img = [1; 96; 96; 96].
Proof.
  unfold val_transforms. rewrite Compose_three.
  cbn [apply_transform mbind outcome_bind shape].
  case_decide; [|done]. by intros [= <-].
Qed.

Lemma sample_at_getitem (ds : NiftiDataset) (i : nat) (x : ndarray V * Z * meta_data) :
  image_only ds = false → sample_at ds i x → NiftiDataset_getitem ds i = Ok (sample_of x).
Proof.
  intros Himg (path & raw & Hpath & Hraw & Ht & Hlabel & Hm).
  unfold NiftiDataset_getitem, load_nifti.
  rewrite (getitem_lookup _ _ _ Hpath). cbn [mbind outcome_bind]. rewrite Hraw.
  rewrite (getitem_lookup _ _ _ Hlabel). cbn [mbind outcome_bind]. rewrite Ht.
  cbn [mbind outcome_bind]. rewrite Himg, <- Hm. done.
Qed.

Lemma getitem_sample_at (ds : NiftiDataset) (i : nat) :
  image_only ds = false → is_Ok (NiftiDataset_getitem ds i) → ∃ x, sample_at ds i x.
Proof.
  intros Himg Hok.
  destruct (NiftiDataset_getitem ds i) as [sample|] eqn:Hs; [|done].
  apply NiftiDataset_getitem_Ok in Hs as (path & label & raw & img & Hp & Hl & Hr & Ht & _).
  exists (img, label, MetaData path (shape raw)). by exists path, raw.
Qed.

Lemma sample_at_shape (i : nat) (x : ndarray V * Z * meta_data) :
  sample_at val_ds i x → shape x.1.1 = [1; 96; 96; 96].
Proof. intros (path & raw & _ & _ & Ht & _). by apply val_transforms_Ok in Ht as [_ ?]. Qed.

Lemma fetch_samples (indices : list nat) (xs : list (ndarray V * Z * meta_data)) :
  Forall2 (sample_at val_ds) indices xs → xs ≠ [] →
  fetch val_loader indices = Ok (collated xs).
Proof.
  intros Hxs Hne. unfold fetch. change (dataset val_loader) with val_ds.
  assert (map_outcome (NiftiDataset_getitem val_ds) indices = Ok (sample_of <$> xs)) as ->.
  { clear Hne. induction Hxs as [|i x indices xs Hx _ IH]; [done|].
    cbn [map_outcome]. rewrite (sample_at_getitem val_ds _ _ eq_refl Hx), IH. done. }
  cbn [mbind outcome_bind].
  apply (default_collate_samples [1; 96; 96; 96]); [done|].
  eapply Forall2_Forall_r; [exact Hxs|].
  apply Forall_forall. intros i _ x. apply sample_at_shape.
Qed.

Lemma sample_row_argmax_class params (x : ndarray V * Z * meta_data) :
  argmax_class params (sample_row params x).2.
Proof. by exists (voxels x.1.1), (predicted_class params (voxels x.1.1)). Qed.

(** One iteration on a batch whose samples can be loaded. *)
Lemma run_iteration_exact params st indices xs σ old c n :
  device_available device = true → evaluating params σ → savers σ = [old] →
  metrics st = {[metric_name := (c, n)]} →
  Forall2 (sample_at val_ds) indices xs → xs ≠ [] →
  run_iteration script_evaluator val_loader st indices σ
  = (Ok (MkState (iteration st + 1) (Some (collated xs)) (Some (iteration_output params xs))
           {[metric_name := (c + correct_samples params xs, n + length xs)]}),
     MkStore [NnModule params (cuda 0) false 1 2] [old ++ (sample_row params <$> xs)]
             (trace σ ++ iteration_events params (iteration st + 1) indices
                           (sample_row params <$> xs))).
Proof.
  intros Hdev Hσ Hsav Hm Hxs Hne. unfold run_iteration.
  rewrite (fetch_samples _ _ Hxs Hne).
  rewrite (bind_Ok _ _ _ (collated xs) σ) by done.
  rewrite (bind_Ok _ _ _ () (emit (BatchFetched indices) σ)) by done.
  rewrite (bind_Ok _ _ _ _ _ (fire_ITERATION_STARTED _ _)).
  cbn [iteration batch output metrics].
  change (process_function script_evaluator (collated xs))
    with (_inference 0 (Some device) true prepare_batch (collated xs)).
  rewrite (bind_Ok _ _ _ _ _
             (inference_exact params xs _ Hdev (evaluating_emit params _ σ Hσ))).
  rewrite (fire_ITERATION_COMPLETED_exact params _ _ xs old c n); [|done..].
  cbn [iteration batch output modules trace emit]. f_equal. f_equal.
  rewrite <- !app_assoc. unfold iteration_events.
  by rewrite (Forall2_length _ _ _ Hxs).
Qed.

(** An iteration on a batch that cannot be fetched raises what the fetching
    raises and leaves the store as it was. *)
Lemma run_iteration_fetch_Raise st indices σ e :
  fetch val_loader indices = Raise e →
  run_iteration script_evaluator val_loader st indices σ = (Raise e, σ).
Proof. intros Hfetch. unfold run_iteration. by rewrite Hfetch. Qed.

(** *** The iterations and the pass *)

(** The iterations on batches whose samples can all be loaded. *)
Lemma run_iterations_exact params (batches : list (list nat))
  (xss : list (list (ndarray V * Z * meta_data))) st σ old c n :
  device_available device = true → evaluating params σ → savers σ = [old] →
  metrics st = {[metric_name := (c, n)]} →
  Forall2 (Forall2 (sample_at val_ds)) batches xss →
  Forall (λ indices, indices ≠ []) batches →
  ∃ st' σ',
    for_each_exec (run_iteration script_evaluator val_loader) batches st σ = (Ok st', σ')
    ∧ iteration st' = iteration st + length batches
    ∧ metrics st' = {[metric_name := (c + correct_samples params (concat xss),
                                      n + length (concat xss))]}
    ∧ evaluating params σ'
    ∧ modules σ' = match batches with
                   | [] => modules σ
                   | _ => [NnModule params (cuda 0) false 1 2]
                   end
    ∧ savers σ' = [old ++ (sample_row params <$> concat xss)]
    ∧ trace σ' = trace σ ++ iterations_events params (iteration st) batches
                              (sample_rows params <$> xss).
Proof.
  intros Hdev Hσ Hsav Hm Hxss. revert st σ old c n Hσ Hsav Hm.
  induction Hxss as [|indices xs batches xss Hxs Hxss IH];
    intros st σ old c n Hσ Hsav Hm Hne.
  - exists st, σ. cbn. rewrite !Nat.add_0_r, !app_nil_r. done.
  - apply Forall_cons in Hne as [Hne Hne'].
    assert (xs ≠ []) as Hxne by (intros ->; by inversion Hxs).
    cbn [for_each_exec].
    rewrite (bind_Ok _ _ _ _ _
               (run_iteration_exact params st indices xs σ old c n Hdev Hσ Hsav Hm Hxs Hxne)).
    set (st1 := MkState (iteration st + 1) (Some (collated xs))
                  (Some (iteration_output params xs))
                  {[metric_name := (c + correct_samples params xs, n + length xs)]}).
    set (σ1 := MkStore [NnModule params (cuda 0) false 1 2]
                 [old ++ (sample_row params <$> xs)]
                 (trace σ ++ iteration_events params (iteration st + 1) indices
                               (sample_row params <$> xs))).
    assert (evaluating params σ1) as Hσ1.
    { split.
      - eexists. split; [reflexivity|]. done.
      - eexists. split; [reflexivity|]. destruct Hσ as [_ (rows & Hrows & Hall)].
        assert (rows = old) as -> by congruence.
        apply Forall_app. split; [done|].
        apply Forall_fmap, Forall_forall. intros x _. apply sample_row_argmax_class. }
    destruct (IH st1 σ1 (old ++ (sample_row params <$> xs))
                 (c + correct_samples params xs) (n + length xs) Hσ1 eq_refl eq_refl Hne')
      as (st' & σ' & Hrun & Hit & Hmet & Hσ' & Hmod & Hsav' & Htr).
    exists st', σ'. split; [exact Hrun|]. subst st1 σ1.
    cbn [iteration metrics modules savers trace] in *.
    split; [rewrite Hit; cbn [length]; lia|].
    split.
    { rewrite Hmet. cbn [concat]. unfold correct_samples.
      rewrite filter_app, !length_app. do 2 f_equal; lia. }
    split; [done|]. split; [by destruct batches|].
    split; [by rewrite Hsav'; cbn [concat]; rewrite fmap_app, app_assoc|].
    rewrite Htr. cbn [fmap list_fmap iterations_events]. by rewrite <- app_assoc.
Qed.

Lemma batches_nonempty : Forall (λ indices : list nat, indices ≠ []) (DataLoader_iter val_loader).
Proof. by repeat constructor. Qed.

(** The pass on a dataset whose samples can all be loaded. *)
Lemma evaluation_pass_exact params (xss : list (list (ndarray V * Z * meta_data))) σ old :
  device_available device = true → evaluating params σ → savers σ = [old] →
  Forall2 (Forall2 (sample_at val_ds)) (DataLoader_iter val_loader) xss →
  ∃ st' σ',
    evaluation_pass script_evaluator val_loader (MkState 0 None None ∅) σ = (Ok st', σ')
    ∧ iteration st' = 5
    ∧ metrics st' = {[metric_name := (correct_samples params (concat xss),
                                      length (concat xss))]}
    ∧ modules σ' = [NnModule params (cuda 0) false 1 2]
    ∧ savers σ' = [old ++ (sample_row params <$> concat xss)]
    ∧ trace σ' = trace σ ++ iterations_events params 0 (DataLoader_iter val_loader)
                              (sample_rows params <$> xss)
                 ++ [Logged 5].
Proof.
  intros Hdev Hσ Hsav Hxss. unfold evaluation_pass.
  rewrite (bind_Ok _ _ _ (MkState 0 None None {[metric_name := (0, 0)]}) σ) by done.
  destruct (run_iterations_exact params _ xss
              (MkState 0 None None {[metric_name := (0, 0)]}) σ old 0 0
              Hdev Hσ Hsav eq_refl Hxss batches_nonempty)
    as (st' & σ' & Hrun & Hit & Hmet & Hσ' & Hmod & Hsav' & Htr).
  rewrite (bind_Ok _ _ _ _ _ Hrun).
  rewrite (bind_Ok _ _ _ st' (emit (Logged (iteration st')) σ')).
  2: { unfold fire_event. rewrite script_evaluator_handlers_list. done. }
  exists st', (emit (Logged (iteration st')) σ').
  split; [done|]. split; [exact Hit|]. split; [exact Hmet|].
  split; [exact Hmod|]. split; [exact Hsav'|].
  cbn [trace emit]. rewrite Htr, Hit, <- app_assoc. done.
Qed.

(** The pass on a dataset of which some batch cannot be fetched: it stops
    at the first such batch, with what the fetching raises. *)
Lemma evaluation_pass_stops params (done : list (list nat)) (indices : list nat)
  (rest : list (list nat)) (xss : list (list (ndarray V * Z * meta_data))) e σ old :
  device_available device = true → evaluating params σ → savers σ = [old] →
  DataLoader_iter val_loader = done ++ indices :: rest →
  Forall2 (Forall2 (sample_at val_ds)) done xss →
  fetch val_loader indices = Raise e →
  ∃ σ',
    evaluation_pass script_evaluator val_loader (MkState 0 None None ∅) σ = (Raise e, σ')
    ∧ evaluating params σ'
    ∧ savers σ' = [old ++ (sample_row params <$> concat xss)]
    ∧ trace σ' = trace σ ++ iterations_events params 0 done
                              (sample_rows params <$> xss).
Proof.
  intros Hdev Hσ Hsav Hbatches Hxss Hfetch. unfold evaluation_pass.
  rewrite (bind_Ok _ _ _ (MkState 0 None None {[metric_name := (0, 0)]}) σ) by done.
  pose proof batches_nonempty as Hne. rewrite Hbatches in Hne |- *.
  apply Forall_app in Hne as [Hne _].
  destruct (run_iterations_exact params _ xss
              (MkState 0 None None {[metric_name := (0, 0)]}) σ old 0 0
              Hdev Hσ Hsav eq_refl Hxss Hne)
    as (st' & σ' & Hrun & Hit & Hmet & Hσ' & Hmod & Hsav' & Htr).
  exists σ'. split; [|done].
  apply bind_Raise. rewrite for_each_exec_app. rewrite (bind_Ok _ _ _ _ _ Hrun).
  cbn [for_each_exec]. apply bind_Raise. by apply run_iteration_fetch_Raise.
Qed.

(** *** The script *)

Lemma Forall_exists_Forall2 {A B} (R : A → B → Prop) (l : list A) :
  Forall (λ a, ∃ b, R a b) l → ∃ k, Forall2 R l k.
Proof.
  induction 1 as [|a l [b Hb] _ [k Hk]]; [by exists []|].
  exists (b :: k). by constructor.
Qed.

(** Samples for the indices of batches, when each index has one. *)
Lemma samples_of_batches (batches : list (list nat)) :
  Forall (λ i, ∃ x, sample_at val_ds i x) (concat batches) →
  ∃ xss, Forall2 (Forall2 (sample_at val_ds)) batches xss.
Proof.
  intros Hall. apply Forall_exists_Forall2.
  apply Forall_concat in Hall. eapply Forall_impl; [exact Hall|].
  intros indices. apply Forall_exists_Forall2.
Qed.

Lemma concat_sample_rows params (xss : list (list (ndarray V * Z * meta_data))) :
  sample_row params <$> concat xss = concat (sample_rows params <$> xss).
Proof.
  induction xss as [|xs xss IH]; [done|].
  cbn [concat fmap list_fmap]. by rewrite fmap_app, IH.
Qed.

Lemma output_rows_samples params (batches : list (list nat))
  (xss : list (list (ndarray V * Z * meta_data))) :
  Forall2 (Forall2 (sample_at val_ds)) batches xss →
  Forall2 (output_row params) (concat batches) (sample_row params <$> concat xss).
Proof.
  induction 1 as [|indices xs batches xss Hxs _ IH]; [constructor|].
  cbn [concat]. rewrite fmap_app. apply Forall2_app; [|exact IH].
  apply Forall2_fmap_r. eapply Forall2_impl; [exact Hxs|].
  intros i x Hx. by exists x, (predicted_class params (voxels x.1.1)).
Qed.

(** The script in a world with the device, the checkpoint and all samples. *)
Lemma main_completed params (xss : list (list (ndarray V * Z * meta_data))) :
  device_available device = true → checkpoint_net = Ok params →
  Forall2 (Forall2 (sample_at val_ds)) (DataLoader_iter val_loader) xss →
  ∃ st,
    main empty_store
    = (Ok st,
       MkStore [NnModule params (cuda 0) false 1 2]
               [concat (sample_rows params <$> xss)]
               ([ModuleMoved 0 (cuda 0); StateDictLoaded checkpoint_path "net" 0]
                ++ iterations_events params 0 (DataLoader_iter val_loader)
                     (sample_rows params <$> xss)
                ++ [Logged 5; OutputWritten "tempdir" (concat (sample_rows params <$> xss))]))
    ∧ iteration st = 5
    ∧ metrics st = {[metric_name := (correct_samples params (concat xss),
                                     length (concat xss))]}.
Proof.
  intros Hdev Hck Hxss. rewrite (main_with_device Hdev).
  pose proof Engine_run_at_run as Hrun. rewrite Hck in Hrun.
  destruct (evaluation_pass_exact params xss (store_loaded params) [] Hdev
              (evaluating_store_loaded params) eq_refl Hxss)
    as (st & σ & Hpass & Hit & Hmet & Hmod & Hsav & Htr).
  rewrite Hpass in Hrun. rewrite (bind_Ok _ _ _ _ _ Hrun).
  cbn [app] in Hsav. rewrite concat_sample_rows in Hsav.
  exists st. split; [|done].
  rewrite (bind_Ok _ _ _ ()
             (emit (OutputWritten "tempdir" (concat (sample_rows params <$> xss))) σ)).
  2: { unfold ClassificationSaver_finalize. cbn [saver_ref output_dir script_saver].
       by rewrite Hsav. }
  cbn [mret Exec_ret]. f_equal. destruct σ as [ms ss tr].
  cbn [modules savers trace emit] in *. subst ms ss tr.
  unfold emit. f_equal. cbn [trace store_loaded]. by rewrite <- !app_assoc.
Qed.

(** The script in a world with the device and the checkpoint in which some
    batch cannot be fetched. *)
Lemma main_stops params (done : list (list nat)) (indices : list nat)
  (rest : list (list nat)) (xss : list (list (ndarray V * Z * meta_data))) e :
  device_available device = true → checkpoint_net = Ok params →
  DataLoader_iter val_loader = done ++ indices :: rest →
  Forall2 (Forall2 (sample_at val_ds)) done xss →
  fetch val_loader indices = Raise e →
  ∃ σ,
    main empty_store = (Raise e, σ)
    ∧ savers σ = [concat (sample_rows params <$> xss)]
    ∧ trace σ = [ModuleMoved 0 (cuda 0); StateDictLoaded checkpoint_path "net" 0]
                ++ iterations_events params 0 done (sample_rows params <$> xss).
Proof.
  intros Hdev Hck Hbatches Hxss Hfetch. rewrite (main_with_device Hdev).
  pose proof Engine_run_at_run as Hrun. rewrite Hck in Hrun.
  destruct (evaluation_pass_stops params done indices rest xss e (store_loaded params) []
              Hdev (evaluating_store_loaded params) eq_refl Hbatches Hxss Hfetch)
    as (σ & Hpass & _ & Hsav & Htr).
  rewrite Hpass in Hrun. exists σ. split; [by apply bind_Raise|].
  cbn [app] in Hsav. by rewrite <- concat_sample_rows.
Qed.

(** When the script returns, the world has the device, the checkpoint and
    all samples. *)
Lemma main_Ok_samples :
  is_Ok (main empty_store).1 →
  ∃ params xss,
    device_available device = true ∧ checkpoint_net = Ok params
    ∧ Forall2 (Forall2 (sample_at val_ds)) (DataLoader_iter val_loader) xss.
Proof.
  destruct main_result as [Hdev|e Hdev Hck|params e σ evs Hdev Hck Hinv Htr Hevs Hpre
                          |params st σ evs rows Hdev Hck Hinv Htr Hevs Hall Hsav Hrows];
    try done.
  intros _. destruct (samples_of_batches (DataLoader_iter val_loader)) as [xss Hxss].
  - apply Forall_forall. intros i Hi.
    apply list_elem_of_lookup_1 in Hi as [k Hk].
    destruct (Forall2_lookup_l _ _ _ _ _ Hrows Hk) as (row & _ & x & z & Hx & _).
    by exists x.
  - by exists params, xss.
Qed.

(** The labels of the samples of the whole dataset are the labels of the
    script. *)
Lemma labels_of_samples (xs : list (ndarray V * Z * meta_data)) :
  Forall2 (sample_at val_ds) (seq 0 10) xs → (λ x, x.1.2) <$> xs = labels.
Proof.
  intros Hxs. apply list_eq. intros i. rewrite list_lookup_fmap.
  destruct (xs !! i) as [x|] eqn:Hx; cbn [fmap option_fmap option_map].
  - destruct (Forall2_lookup_r _ _ _ _ _ Hxs Hx) as (j & Hj & path & raw & _ & _ & _ & Hl & _).
    apply lookup_seq in Hj as [-> _]. symmetry. exact Hl.
  - apply lookup_ge_None in Hx. rewrite <- (Forall2_length _ _ _ Hxs) in Hx.
    symmetry. by apply lookup_ge_None.
Qed.

(** *** The events of the iterations *)

Lemma fetched_kept_events (rows : list (meta_data * saved S)) : fetched (kept_events rows) = [].
Proof. induction rows as [|row rows IH]; [done|]. exact IH. Qed.

Lemma fetched_iterations_events params (k : nat) (batches : list (list nat))
  (rowss : list (list (meta_data * saved S))) :
  length batches = length rowss →
  fetched (iterations_events params k batches rowss) = batches.
Proof.
  revert k rowss. induction batches as [|indices batches IH]; intros k [|rows rowss] Hlen;
    try done.
  cbn [iterations_events]. unfold iteration_events.
  rewrite !fetched_app, fetched_kept_events, IH by (cbn in Hlen; lia). done.
Qed.

Lemma iterations_events_no_output params (k : nat) (batches : list (list nat))
  (rowss : list (list (meta_data * saved S))) :
  Forall (λ e, ¬ writes_output e) (iterations_events params k batches rowss).
Proof.
  revert k rowss. induction batches as [|indices batches IH]; intros k rowss;
    [constructor|].
  destruct rowss as [|rows rowss]; [constructor|].
  cbn [iterations_events]. apply Forall_app. split; [|apply IH].
  unfold iteration_events. apply Forall_app. split.
  - repeat constructor; by intros [].
  - apply Forall_fmap, Forall_forall. by intros row _ [].
Qed.

Lemma Forall2_concat {A B} (R : A → B → Prop) (ls : list (list A)) (ks : list (list B)) :
  Forall2 (Forall2 R) ls ks → Forall2 R (concat ls) (concat ks).
Proof. induction 1; [constructor|]. cbn [concat]. by apply Forall2_app. Qed.

(** *** The batch of a sample *)

(** The batch that holds sample [i] is batch number [i / 2]; the batches
    before it hold the samples before [2 * (i / 2)], and in its batch only
    smaller indices come before [i]. *)
Lemma batch_of_sample (i : nat) :
  i < 10 →
  ∃ pre post,
    DataLoader_iter val_loader
    = take (i / 2) (DataLoader_iter val_loader)
      ++ (pre ++ i :: post) :: drop (Datatypes.S (i / 2)) (DataLoader_iter val_loader)
    ∧ Forall (λ j, j < i) (concat (take (i / 2) (DataLoader_iter val_loader)) ++ pre)
    ∧ concat (take (i / 2) (DataLoader_iter val_loader)) = seq 0 (2 * (i / 2)).
Proof.
  intros Hi.
  do 10 (destruct i as [|i];
         [first [ eexists [], [_]; split; [reflexivity|]; split; [|reflexivity];
                  vm_compute; repeat constructor
                | eexists [_], []; split; [reflexivity|]; split; [|reflexivity];
                  vm_compute; repeat constructor ]|]).
  lia.
Qed.

(** The first sample of a batch that cannot be loaded decides what the
    fetching of the batch raises. *)
Lemma fetch_first_Raise (loader : DataLoader) (pre post : list nat) (i : nat) e :
  Forall (λ j, is_Ok (NiftiDataset_getitem (dataset loader) j)) pre →
  NiftiDataset_getitem (dataset loader) i = Raise e →
  fetch loader (pre ++ i :: post) = Raise e.
Proof.
  intros Hpre Hi. unfold fetch.
  assert (map_outcome (NiftiDataset_getitem (dataset loader)) (pre ++ i :: post) = Raise e)
    as ->; [|done].
  induction Hpre as [|j pre Hj _ IH]; cbn [app map_outcome].
  - by rewrite Hi.
  - destruct (NiftiDataset_getitem (dataset loader) j); [|done].
    cbn [mbind outcome_bind]. by rewrite IH.
Qed.

(** *** The batches of a loader *)

Lemma batch_indices_concat_prefix (n batch_size m : nat) :
  0 < batch_size → m ≤ (n + batch_size - 1) `div` batch_size →
  concat ((λ j, seq (j * batch_size) (batch_size `min` (n - j * batch_size))) <$> seq 0 m)
  = seq 0 (n `min` (m * batch_size)).
Proof.
  intros Hb. induction m as [|m IH]; intros Hm.
  - by rewrite Nat.min_0_r.
  - pose proof (Nat.Div0.mul_div_le (n + batch_size - 1) batch_size) as Hdiv.
    assert (m * batch_size < n) as Hlt by nia.
    rewrite seq_S, fmap_app, concat_app, IH by lia. cbn [fmap list_fmap concat Nat.add].
    rewrite app_nil_r.
    replace (n `min` (m * batch_size)) with (m * batch_size) by lia.
    replace (n `min` (Datatypes.S m * batch_size))
      with (m * batch_size + batch_size `min` (n - m * batch_size)) by lia.
    by rewrite seq_app.
Qed.

(** ** What is kept and written, in every world *)

Lemma argmax_row_two_scores (a b : S) :
  argmax_row [a; b] = Ok (if score_gt w b a then 1 else 0)%Z.
Proof. cbn. by destruct (score_gt w b a). Qed.

Lemma predicted_class_greater_score params (v : V) :
  predicted_class params v = greater_score_class params v.
Proof.
  unfold predicted_class, greater_score_class. cbn.
  by destruct (score_gt w (class_score w params v 1) (class_score w params v 0)).
Qed.

Lemma output_row_image_row params (i : nat) (row : meta_data * saved S) :
  output_row params i row → image_row params i row.
Proof.
  intros ([[img label] m] & z & (path & raw & Hpath & Hraw & Himg & _ & Hm) & Hz & ->).
  cbn [fst snd] in Himg, Hm, Hz. subst m.
  rewrite argmax_row_network_scores in Hz. injection Hz as <-.
  exists path, raw, img. by rewrite predicted_class_greater_score.
Qed.

Lemma sample_row_image_row params (i : nat) (x : ndarray V * Z * meta_data) :
  sample_at val_ds i x → image_row params i (sample_row params x).
Proof.
  intros Hx. apply output_row_image_row.
  by exists x, (predicted_class params (voxels x.1.1)).
Qed.

Lemma iterations_events_image_rows params (k : nat) (batches : list (list nat))
  (xss : list (list (ndarray V * Z * meta_data))) :
  Forall2 (Forall2 (sample_at val_ds)) batches xss →
  Forall (persists_image_rows params)
         (iterations_events params k batches (sample_rows params <$> xss)).
Proof.
  intros Hxss. revert k. induction Hxss as [|indices xs batches xss Hxs _ IH]; intros k.
  - constructor.
  - cbn [fmap list_fmap iterations_events]. apply Forall_app. split; [|apply IH].
    unfold iteration_events. apply Forall_app. split; [by repeat constructor|].
    unfold kept_events, sample_rows. rewrite <- list_fmap_compose.
    apply Forall_fmap. clear IH.
    induction Hxs as [|i x indices xs Hx _ IH]; constructor; [|exact IH].
    exists i. by apply sample_row_image_row.
Qed.

(** Either every sample of the dataset can be loaded, or there is a first
    one that cannot. *)
Lemma samples_or_first_failure (n : nat) :
  (∀ i, i < n → is_Ok (NiftiDataset_getitem val_ds i))
  ∨ ∃ i e, i < n ∧ NiftiDataset_getitem val_ds i = Raise e
           ∧ ∀ j, j < i → is_Ok (NiftiDataset_getitem val_ds j).
Proof.
  induction n as [|n [Hall | (i & e & Hi & He & Hbefore)]].
  - left. intros i Hi. lia.
  - destruct (NiftiDataset_getitem val_ds n) as [sample|e] eqn:Hn.
    + left. intros i Hi. destruct (decide (i = n)) as [-> | Hne].
      * by rewrite Hn.
      * apply Hall. lia.
    + right. exists n, e. split; [lia|]. split; [done | exact Hall].
  - right. exists i, e. split; [lia|]. done.
Qed.

(** The trace of the script in a world with the device and the checkpoint:
    the network is moved, the parameters are loaded, the batches of which
    all samples can be loaded are processed in order up to the first sample
    that cannot be loaded, and if there is none the epoch is logged and the
    rows are written. *)
Lemma main_trace_with_checkpoint params :
  device_available device = true → checkpoint_net = Ok params →
  ∃ (done : list (list nat)) (xss : list (list (ndarray V * Z * meta_data)))
    (tail : list (event S P)),
    Forall2 (Forall2 (sample_at val_ds)) done xss
    ∧ trace (main empty_store).2
      = [ModuleMoved 0 (cuda 0); StateDictLoaded checkpoint_path "net" 0]
        ++ iterations_events params 0 done (sample_rows params <$> xss) ++ tail
    ∧ (tail = []
       ∨ done = DataLoader_iter val_loader
         ∧ tail = [Logged 5;
                   OutputWritten "tempdir" (concat (sample_rows params <$> xss))]).
Proof.
  intros Hdev Hck.
  destruct (samples_or_first_failure 10) as [Hall | (i & e & Hi & Hfail & Hbefore)].
  - destruct (samples_of_batches (DataLoader_iter val_loader)) as [xss Hxss].
    { apply Forall_forall. intros i Hi. apply (getitem_sample_at val_ds); [done|].
      apply Hall. change (concat (DataLoader_iter val_loader)) with (seq 0 10) in Hi.
      apply elem_of_seq in Hi. lia. }
    destruct (main_completed params xss Hdev Hck Hxss) as (st & Hmain & _).
    exists (DataLoader_iter val_loader), xss,
      [Logged 5; OutputWritten "tempdir" (concat (sample_rows params <$> xss))].
    split; [done|]. split; [by rewrite Hmain|]. by right.
  - destruct (batch_of_sample i Hi) as (pre & post & Hbatches & Hlt & _).
    apply Forall_app in Hlt as [Hdone Hpre].
    destruct (samples_of_batches (take (i / 2) (DataLoader_iter val_loader))) as [xss Hxss].
    { eapply Forall_impl; [exact Hdone|]. intros j Hj.
      by apply (getitem_sample_at val_ds), Hbefore. }
    destruct (main_stops params _ _ _ xss e Hdev Hck Hbatches Hxss) as (σ & Hmain & _ & Htr).
    { apply fetch_first_Raise; [|done].
      eapply Forall_impl; [exact Hpre|]. intros j Hj. by apply Hbefore. }
    exists (take (i / 2) (DataLoader_iter val_loader)), xss, [].
    split; [done|]. split; [|by left].
    rewrite Hmain. cbn [snd]. by rewrite Htr, app_nil_r.
Qed.

(** In every world, either the script kept and wrote nothing, or the
    checkpoint gave the parameters and all that it kept and wrote is rows
    of its image files. *)
Lemma main_persists_image_rows :
  Forall (λ e, ¬ persists e) (trace (main empty_store).2)
  ∨ ∃ params, checkpoint_net = Ok params
              ∧ Forall (persists_image_rows params) (trace (main empty_store).2).
Proof.
  destruct (device_available device) eqn:Hdev.
  2: { left. rewrite (main_no_device Hdev). constructor. }
  destruct checkpoint_net as [params|e] eqn:Hck.
  2: { left. rewrite (main_with_device Hdev).
       pose proof Engine_run_at_run as Hrun. rewrite Hck in Hrun.
       rewrite (bind_Raise _ _ _ _ _ Hrun). repeat constructor. by intros []. }
  right. exists params. split; [done|].
  destruct (main_trace_with_checkpoint params Hdev Hck)
    as (done & xss & tail & Hxss & -> & Htail).
  apply Forall_app. split; [by repeat constructor|].
  apply Forall_app. split; [by apply iterations_events_image_rows|].
  destruct Htail as [-> | [-> ->]]; [constructor|].
  repeat constructor. cbn [persists_image_rows].
  rewrite <- concat_sample_rows.
  pose proof (output_rows_samples params _ _ Hxss) as Hrows.
  pose proof (Forall2_length _ _ _ Hrows) as Hlen.
  rewrite <- Hlen. change (concat (DataLoader_iter val_loader)) with (seq 0 10) in *.
  rewrite length_seq. change (seq 0 10) with (concat (DataLoader_iter val_loader)).
  eapply Forall2_impl; [exact Hrows|]. apply output_row_image_row.
Qed.

(** * The claims about the script *)

(** C1. On a batch that is a triple (image, label, meta), [prepare_batch]
    hands exactly the pair (image, label) to ignite's [_prepare_batch], with
    the device and the non_blocking flag it was given; the result is the
    same whatever the meta element is; and with no device the result is the
    pair itself. *)
Theorem prepare_batch_forwards_image_and_label
  (image label meta : value V S) (dev : option torch_device) (non_blocking : bool) :
  prepare_batch [image; label; meta] dev non_blocking
    = _prepare_batch (image, label) dev non_blocking
  ∧ (∀ meta', prepare_batch [image; label; meta'] dev non_blocking
              = prepare_batch [image; label; meta] dev non_blocking)
  ∧ prepare_batch [image; label; meta] None non_blocking = Ok (image, label).
Proof.
  assert (Hfwd : ∀ m, prepare_batch [image; label; m] dev non_blocking
                      = _prepare_batch (image, label) dev non_blocking).
  { intros m. unfold prepare_batch.
    rewrite (getitem_lookup _ 0 image), (getitem_lookup _ 1 label); done. }
  split; [apply Hfwd|]. split.
  - intros meta'. by rewrite !Hfwd.
  - unfold prepare_batch.
    rewrite (getitem_lookup _ 0 image), (getitem_lookup _ 1 label); done.
Qed.

(** C2. The chain is rescale, then add a leading channel dimension, then
    resize to 96x96x96, and on every three-dimensional volume it returns an
    array of shape (1, 96, 96, 96). *)
Theorem val_transforms_shape (img : ndarray V) :
  length (shape img) = 3 →
  val_transforms img
    = (apply_transform Rescale img ≫= apply_transform AddChannel)
        ≫= apply_transform (Resize [96; 96; 96])
  ∧ ∃ out, val_transforms img = Ok out ∧ shape out = [1; 96; 96; 96].
Proof.
  intros H3. split.
  - apply Compose_three.
  - by apply val_transforms_3d.
Qed.


(** C4. When the script runs to completion, the saver's output is written
    once, to the directory tempdir, as the last event of the run, and it has
    exactly one row per sample of the dataset, in the order of the dataset:
    the row of a sample carries the metadata of that sample (the name of its
    file and the shape read from it), and the names of the rows are
    pairwise distinct. *)
Theorem one_output_row_per_sample :
  is_Ok (main empty_store).1 →
  ∃ evs rows,
    trace (main empty_store).2 = evs ++ [OutputWritten "tempdir" rows]
    ∧ Forall (λ e, ¬ writes_output e) evs
    ∧ Forall2 (λ path row, ∃ raw, nifti_files w path = Some raw
                                  ∧ row.1 = MetaData path (shape raw))
              images rows
    ∧ NoDup ((λ row, filename_or_obj row.1) <$> rows).
Proof.
  destruct main_result as [Hdev|e Hdev Hck|params e σ evs Hdev Hck Hinv Htr Hevs Hpre
                          |params st σ evs rows Hdev Hck Hinv Htr Hevs Hall Hsav Hmeta];
    try done.
  intros _. exists (trace σ), rows. split; [done|].
  apply rows_of_images in Hmeta. split; [|split].
  - rewrite Htr. apply Forall_app. split.
    + repeat constructor; by intros [].
    + by eapply evaluation_event_no_output.
  - eapply Forall2_impl; [exact Hmeta|].
    intros path row (raw & img & z & Hraw & _ & _ & ->). by exists raw.
  - assert ((λ row : meta_data * saved S, filename_or_obj row.1) <$> rows = images) as ->;
      [|apply images_NoDup].
    clear -Hmeta.
    induction Hmeta as [|path row paths rows (raw & img & z & _ & _ & _ & Hrow) _ IH]; [done|].
    cbn. rewrite IH, Hrow. done.
Qed.

(** C5. With the device and an entry net in the checkpoint file
    ./runs/net_checkpoint_40.pth, the parameters of the network are loaded
    exactly once, from that entry, before any batch is processed, and they
    are not changed afterwards: the trace of the script begins with the
    move of the network to the device and the one load event; none of the
    events after it is a load; every forward pass after it is one of the
    network with the loaded parameters; and the network holds these
    parameters when the script ends, whether it returned or raised.
    (Without the device or without the entry the script raises before
    anything is processed.) *)
Theorem checkpoint_loaded_once_before_evaluation (params : P) :
  device_available device = true →
  (torch_load "./runs/net_checkpoint_40.pth"
     ≫= λ checkpoint, dict_getitem checkpoint "net") = Ok params →
  ∃ evs m,
    trace (main empty_store).2
    = [ModuleMoved 0 (cuda 0); StateDictLoaded "./runs/net_checkpoint_40.pth" "net" 0]
      ++ evs
    ∧ Forall (λ e, ¬ loads_parameters e ∧ forward_with params e) evs
    ∧ modules (main empty_store).2 = [m]
    ∧ parameters m = params.
Proof.
  intros Hdev Hnet. change (checkpoint_net = Ok params) in Hnet.
  destruct main_result as [Hno|e Hdev' Hck|params' e σ evs Hdev' Hck Hinv Htr Hevs Hpre
                          |params' st σ evs rows Hdev' Hck Hinv Htr Hevs Hall Hsav Hmeta].
  - congruence.
  - congruence.
  - assert (params' = params) as -> by congruence.
    destruct Hinv as [(m & Hm & Hp & _) _].
    exists evs, m. split; [exact Htr|]. split; [|done].
    by apply evaluation_event_after_load.
  - assert (params' = params) as -> by congruence.
    destruct Hinv as [(m & Hm & Hp & _) _].
    exists (evs ++ [OutputWritten "tempdir" rows]), m.
    split; [|split; [|done]].
    + cbn [trace emit]. rewrite Htr. by rewrite <- app_assoc.
    + apply Forall_app. split; [by apply evaluation_event_after_load|].
      repeat constructor. by intros [].
Qed.

(** C6. When the device of the script, the first CUDA device, is not
    available, the script raises while it creates the evaluator: the trace
    is empty (no batch was fetched, nothing was written) and no prediction
    saver exists yet. *)
Theorem unavailable_device_fails_before_any_batch :
  device_available device = false →
  main empty_store = (Raise (RuntimeError "device is not available"), store_created)
  ∧ trace (main empty_store).2 = []
  ∧ savers (main empty_store).2 = [].
Proof.
  intros Hdev. rewrite (main_no_device Hdev). done.
Qed.

(** C7. The loader is configured with batch size 2 and 4 workers, and
    memory pinning is on exactly when a CUDA device is available. With ten
    samples the batches are the five consecutive pairs of indices. *)
Theorem val_loader_configuration :
  dataset val_loader = val_ds
  ∧ batch_size val_loader = 2
  ∧ num_workers val_loader = 4
  ∧ pin_memory val_loader = torch_cuda_is_available
  ∧ (pin_memory val_loader = true ↔ 0 < cuda_device_count w)
  ∧ DataLoader_iter val_loader = [[0; 1]; [2; 3]; [4; 5]; [6; 7]; [8; 9]].
Proof.
  repeat split; try reflexivity.
  - intros Hpin. cbn in Hpin. unfold torch_cuda_is_available in Hpin.
    by apply bool_decide_eq_true in Hpin.
  - intros Hcuda. cbn. unfold torch_cuda_is_available.
    by apply bool_decide_eq_true.
Qed.


(** C9. The output transform of the prediction saver is the argmax over
    dimension 1 of the model output. On a row of two scores the argmax is
    class 1 when the score of class 1 is greater than the score of class 0
    and class 0 otherwise, so it is 0 or 1. Whatever the world, either the
    script kept and wrote nothing, or the checkpoint gave the parameters of
    the network and every prediction the script handed to the saver and
    every prediction the saver wrote is the argmax of the two scores of the
    network: a kept row is the row of one of the image files, with the
    class that the comparison of the two scores of its transformed image
    gives, and the rows written are the rows of the first files in the
    order of the list. All of them are class indices 0 or 1, never
    scores. *)
Theorem saved_predictions_are_class_indices :
  (∀ rows dev y,
     saver_output_transform (ScoreTensor rows dev, y)
     = (classes ← map_outcome argmax_row rows; Ok (IntTensor classes dev)))
  ∧ (∀ a b, argmax_row [a; b] = Ok (if score_gt w b a then 1 else 0)%Z)
  ∧ (∀ row, length row = 2 → ∃ z, argmax_row row = Ok z ∧ (z = 0 ∨ z = 1)%Z)
  ∧ (Forall (λ e, ¬ persists e) (trace (main empty_store).2)
     ∨ ∃ params, checkpoint_net = Ok params
                 ∧ Forall (persists_argmax params) (trace (main empty_store).2))
  ∧ (Forall (λ e, ¬ persists e) (trace (main empty_store).2)
     ∨ ∃ params, checkpoint_net = Ok params
                 ∧ Forall (persists_image_rows params) (trace (main empty_store).2))
  ∧ Forall persists_class_indices (trace (main empty_store).2)
  ∧ Forall (Forall (λ row, class_index row.2)) (savers (main empty_store).2).
Proof.
  split; [done|]. split; [apply argmax_row_two_scores|].
  split; [apply argmax_row_two_classes|].
  assert (Forall (λ e, ¬ persists e) (trace (main empty_store).2)
          ∧ Forall (Forall (λ row : meta_data * saved S, class_index row.2))
                   (savers (main empty_store).2)
          ∨ ∃ params, checkpoint_net = Ok params
                      ∧ Forall (persists_argmax params) (trace (main empty_store).2)
                      ∧ Forall (Forall (λ row, argmax_class params row.2))
                               (savers (main empty_store).2)) as Hcases.
  { destruct main_result as [Hdev|e Hdev Hck|params e σ evs Hdev Hck Hinv Htr Hevs Hpre
                            |params st σ evs rows Hdev Hck Hinv Htr Hevs Hall Hsav Hmeta].
    - left. split; constructor.
    - left. split; repeat constructor; by intros [].
    - right. exists params. split; [done|].
      destruct Hinv as [_ (rows & Hsav & Hrows)]. split.
      + rewrite Htr. apply Forall_app. split; [repeat constructor|].
        by apply evaluation_event_argmax.
      + rewrite Hsav. by repeat constructor.
    - right. exists params. split; [done|].
      destruct Hinv as [_ (rows' & Hsav' & Hrows)].
      assert (rows' = rows) as -> by congruence. split.
      + cbn [trace emit]. rewrite Htr. rewrite !Forall_app. split; [split|].
        * repeat constructor.
        * by apply evaluation_event_argmax.
        * by repeat constructor.
      + cbn [savers emit]. rewrite Hsav. by repeat constructor. }
  destruct Hcases as [[Hnone Hsav] | (params & Hck & Htr & Hsav)].
  - split; [by left|]. split; [apply main_persists_image_rows|]. split; [|done].
    eapply Forall_impl; [done|]. intros e He. destruct e; cbn in *; tauto.
  - split; [right; by exists params|]. split; [apply main_persists_image_rows|]. split.
    + eapply Forall_impl; [done|]. apply persists_argmax_class_indices.
    + eapply Forall_impl; [done|]. intros rows Hrows.
      eapply Forall_impl; [done|]. intros row. apply argmax_class_index.
Qed.

(** C10. The output of the prediction saver is written only after
    [evaluator.run] has returned: either the script raised and nothing was
    written, or the script returned and the writing is the last event of the
    trace, after the fetching of all five batches. *)
Theorem finalize_only_after_run_returned :
  let r := main empty_store in
  (raises r.1 ∧ Forall (λ e, ¬ writes_output e) (trace r.2))
  ∨ (is_Ok r.1
     ∧ ∃ evs rows, trace r.2 = evs ++ [OutputWritten "tempdir" rows]
                   ∧ Forall (λ e, ¬ writes_output e) evs
                   ∧ fetched evs = DataLoader_iter val_loader
                   ∧ savers r.2 = [rows]).
Proof.
  cbn zeta. destruct main_result as [Hdev|e Hdev Hck|params e σ evs Hdev Hck Hinv Htr Hevs Hpre
                                     |params st σ evs rows Hdev Hck Hinv Htr Hevs Hall Hsav Hmeta].
  - left. split; [done|]. constructor.
  - left. split; [done|]. repeat constructor; by intros [].
  - left. split; [done|]. rewrite Htr. apply Forall_app. split.
    + repeat constructor; by intros [].
    + by eapply evaluation_event_no_output.
  - right. split; [done|].
    exists (trace σ), rows. split; [done|]. split; [|split; [|done]].
    + rewrite Htr. apply Forall_app. split.
      * repeat constructor; by intros [].
      * by eapply evaluation_event_no_output.
    + rewrite Htr, fetched_app. done.
Qed.

(** * Further properties *)

(** X1. In a world that has what the script needs (the first CUDA device,
    an entry net in the checkpoint file, a three-dimensional volume in each
    of the ten image files) the script runs to completion: it returns, all
    five batches were fetched, and the last event is the writing of ten
    rows to tempdir. *)
Theorem script_completes :
  world_ready →
  is_Ok (main empty_store).1
  ∧ ∃ evs rows,
      trace (main empty_store).2 = evs ++ [OutputWritten "tempdir" rows]
      ∧ fetched evs = [[0; 1]; [2; 3]; [4; 5]; [6; 7]; [8; 9]]
      ∧ length rows = 10.
Proof.
  intros Hready. pose proof (main_returns Hready) as Hok. split; [exact Hok|].
  destruct main_result as [Hdev|e Hdev Hck|params e σ evs Hdev Hck Hinv Htr Hevs Hpre
                          |params st σ evs rows Hdev Hck Hinv Htr Hevs Hall Hsav Hmeta];
    try done.
  exists (trace σ), rows. split; [done|]. split.
  - rewrite Htr, fetched_app. exact Hall.
  - apply Forall2_length in Hmeta. symmetry. exact Hmeta.
Qed.

(** X2. [prepare_batch] reads the first two items of the batch and nothing
    else: on a batch of at least two items the result is that of ignite's
    [_prepare_batch] on the pair of the first two, and on a shorter batch it
    raises IndexError. *)
Theorem prepare_batch_reads_first_two_items
  (batch : list (value V S)) (dev : option torch_device) (non_blocking : bool) :
  match batch with
  | x :: y :: _ => prepare_batch batch dev non_blocking
                   = _prepare_batch (x, y) dev non_blocking
  | _ => prepare_batch batch dev non_blocking = Raise IndexError
  end.
Proof.
  destruct batch as [|x [|y rest]]; unfold prepare_batch.
  - reflexivity.
  - rewrite (getitem_lookup _ 0 x) by done. reflexivity.
  - rewrite (getitem_lookup _ 0 x), (getitem_lookup _ 1 y) by done. reflexivity.
Qed.

(** X3. When the script runs to completion, the rows it wrote are, file by
    file in the order of the image list, the metadata of the file and the
    class that has the greater score when the network, with the parameters
    of the checkpoint, is applied to the transformed image of the file:
    class 1 when the score of class 1 is greater than the score of class 0,
    and class 0 otherwise; this class is the argmax of the two scores. *)
Theorem output_rows_are_predictions_of_the_images :
  is_Ok (main empty_store).1 →
  ∃ params evs rows,
    checkpoint_net = Ok params
    ∧ trace (main empty_store).2 = evs ++ [OutputWritten "tempdir" rows]
    ∧ Forall2 (λ path row, ∃ raw img z,
                 nifti_files w path = Some raw
                 ∧ val_transforms raw = Ok img
                 ∧ z = (if score_gt w (class_score w params (voxels img) 1)
                                      (class_score w params (voxels img) 0)
                        then 1 else 0)%Z
                 ∧ argmax_row (class_score w params (voxels img) <$> [0; 1]) = Ok z
                 ∧ row = (MetaData path (shape raw), SavedClass z))
              images rows.
Proof.
  destruct main_result as [Hdev|e Hdev Hck|params e σ evs Hdev Hck Hinv Htr Hevs Hpre
                          |params st σ evs rows Hdev Hck Hinv Htr Hevs Hall Hsav Hmeta];
    try done.
  intros _. exists params, (trace σ), rows. split; [done|]. split; [done|].
  apply rows_of_images in Hmeta. eapply Forall2_impl; [exact Hmeta|].
  intros path row (raw & img & z & Hraw & Himg & Hz & ->).
  exists raw, img, z. split; [done|]. split; [done|]. split; [|done].
  change (network_scores params (voxels img))
    with [class_score w params (voxels img) 0; class_score w params (voxels img) 1] in Hz.
  rewrite argmax_row_two_scores in Hz. by injection Hz as <-.
Qed.

(** X4. The script returns exactly in the worlds that have what it needs:
    the first CUDA device, the entry net in the checkpoint file, and a
    three-dimensional volume in each of the ten image files. In every other
    world it raises. *)
Theorem script_completes_exactly_in_a_ready_world :
  is_Ok (main empty_store).1 ↔ world_ready.
Proof.
  split; [|apply main_returns].
  intros Hok. destruct (main_Ok_samples Hok) as (params & xss & Hdev & Hck & Hxss).
  split; [done|]. split; [by rewrite Hck|].
  intros path Hpath. apply list_elem_of_lookup_1 in Hpath as [i Hi].
  apply Forall2_concat in Hxss.
  assert (concat (DataLoader_iter val_loader) !! i = Some i) as Hlookup.
  { apply lookup_lt_Some in Hi. by apply (lookup_seq_lt 0 10). }
  destruct (Forall2_lookup_l _ _ _ _ _ Hxss Hlookup)
    as (x & _ & path' & raw & Hpath' & Hraw & Ht & _).
  change (image_files val_ds) with images in Hpath'.
  assert (path' = path) as -> by congruence.
  exists raw. split; [done|]. by apply val_transforms_Ok in Ht as [? _].
Qed.

(** X5. Without the checkpoint file, or without an entry net in it, the
    script raises when the run starts: the network was created and moved to
    the device and the saver was created, but no batch was fetched, the
    network was not applied, and it still has the parameters it was
    constructed with. The script never evaluates an untrained network
    silently. *)
Theorem missing_checkpoint_stops_before_any_batch :
  device_available device = true →
  (checkpoint_files w "./runs/net_checkpoint_40.pth" = None
   ∨ ∃ checkpoint, checkpoint_files w "./runs/net_checkpoint_40.pth" = Some checkpoint
                   ∧ checkpoint !! "net"%string = None) →
  raises (main empty_store).1
  ∧ (main empty_store).2
    = MkStore [NnModule (initial_parameters w 1 2) (cuda 0) true 1 2] [[]]
              [ModuleMoved 0 (cuda 0)].
Proof.
  intros Hdev Hmissing.
  assert (∃ e, checkpoint_net = Raise e) as [e Hck].
  { unfold checkpoint_net, torch_load, dict_getitem.
    change checkpoint_path with "./runs/net_checkpoint_40.pth"%string.
    destruct Hmissing as [-> | (checkpoint & -> & Hnet)]; [by eexists|].
    cbn [mbind outcome_bind]. rewrite Hnet. by eexists. }
  rewrite (main_with_device Hdev).
  pose proof Engine_run_at_run as Hrun. rewrite Hck in Hrun.
  by rewrite (bind_Raise _ _ _ _ _ Hrun).
Qed.

(** X6. With the device and the checkpoint, the first sample of the dataset
    that cannot be loaded stops the run: if sample [i] raises [e] and the
    samples before it can be loaded, the script raises [e]; the batches
    fetched are those before the batch of sample [i], the saver holds the
    rows of their samples and nothing else, and nothing is written. *)
Theorem first_failing_sample_stops_the_run (i : nat) (e : exn) (params : P) :
  device_available device = true →
  checkpoint_net = Ok params →
  i < 10 →
  (∀ j, j < i → is_Ok (NiftiDataset_getitem val_ds j)) →
  NiftiDataset_getitem val_ds i = Raise e →
  (main empty_store).1 = Raise e
  ∧ fetched (trace (main empty_store).2) = take (i / 2) (DataLoader_iter val_loader)
  ∧ Forall (λ ev, ¬ writes_output ev) (trace (main empty_store).2)
  ∧ ∃ rows, savers (main empty_store).2 = [rows]
            ∧ Forall2 (output_row params) (seq 0 (2 * (i / 2))) rows.
Proof.
  intros Hdev Hck Hi Hbefore Hfail.
  destruct (batch_of_sample i Hi) as (pre & post & Hbatches & Hlt & Hconcat).
  apply Forall_app in Hlt as [Hdone Hpre].
  destruct (samples_of_batches (take (i / 2) (DataLoader_iter val_loader))) as [xss Hxss].
  { eapply Forall_impl; [exact Hdone|]. intros j Hj.
    by apply (getitem_sample_at val_ds), Hbefore. }
  destruct (main_stops params _ _ _ xss e Hdev Hck Hbatches Hxss) as (σ & Hmain & Hsav & Htr).
  { apply fetch_first_Raise; [|done].
    eapply Forall_impl; [exact Hpre|]. intros j Hj. by apply Hbefore. }
  rewrite Hmain. cbn [fst snd]. split; [done|].
  pose proof (Forall2_length _ _ _ Hxss) as Hlen.
  split; [|split].
  - rewrite Htr, fetched_app. cbn [fetched omap app].
    apply fetched_iterations_events. by rewrite length_fmap.
  - rewrite Htr. apply Forall_app. split; [|apply iterations_events_no_output].
    repeat constructor; by intros [].
  - eexists. split; [exact Hsav|].
    rewrite <- concat_sample_rows, <- Hconcat. by apply output_rows_samples.
Qed.

(** X7. When the script runs to completion, the state that [evaluator.run]
    returns counts five iterations, and its only metric, Accuracy, is the
    number of samples whose written class equals their label in the label
    list of the script, out of ten samples. *)
Theorem accuracy_of_a_completed_run :
  is_Ok (main empty_store).1 →
  ∃ st evs metas classes,
    (main empty_store).1 = Ok st
    ∧ trace (main empty_store).2
      = evs ++ [OutputWritten "tempdir" (zip metas (SavedClass <$> classes))]
    ∧ length metas = 10 ∧ length classes = 10
    ∧ iteration st = 5
    ∧ metrics st = {[ "Accuracy"%string := (correct_count classes labels, 10) ]}.
Proof.
  intros Hok. destruct (main_Ok_samples Hok) as (params & xss & Hdev & Hck & Hxss).
  destruct (main_completed params xss Hdev Hck Hxss) as (st & Hmain & Hit & Hmet).
  apply Forall2_concat in Hxss.
  change (concat (DataLoader_iter val_loader)) with (seq 0 10) in Hxss.
  pose proof (Forall2_length _ _ _ Hxss) as Hlen. cbn [length seq] in Hlen.
  rewrite Hmain. cbn [fst snd trace].
  exists st,
    ([ModuleMoved 0 (cuda 0); StateDictLoaded checkpoint_path "net" 0]
     ++ iterations_events params 0 (DataLoader_iter val_loader) (sample_rows params <$> xss)
     ++ [Logged 5]),
    (snd <$> concat xss),
    (predicted_class params <$> ((λ x, voxels x.1.1) <$> concat xss)).
  split; [done|]. split.
  { rewrite zip_sample_rows, concat_sample_rows, <- !app_assoc. done. }
  rewrite !length_fmap, <- Hlen. split; [done|]. split; [done|]. split; [exact Hit|].
  rewrite Hmet, <- correct_count_samples, (labels_of_samples _ Hxss), <- Hlen. done.
Qed.

(** X8. When the script runs to completion, the events of the run are
    exactly these, in this order: the network is moved to the device; the
    parameters are loaded from the checkpoint; then for each of the five
    batches, in order, the batch is fetched, the network is applied once to
    the two samples of the batch with the loaded parameters, the statistics
    of the iteration are logged, and the saver keeps the rows of the two
    samples; then the statistics of the epoch are logged, and the saver
    writes all rows it kept. *)
Theorem events_of_a_completed_run :
  is_Ok (main empty_store).1 →
  ∃ params rowss,
    checkpoint_net = Ok params
    ∧ Forall2 (Forall2 (output_row params)) (DataLoader_iter val_loader) rowss
    ∧ trace (main empty_store).2
      = [ModuleMoved 0 (cuda 0); StateDictLoaded "./runs/net_checkpoint_40.pth" "net" 0]
        ++ iterations_events params 0 (DataLoader_iter val_loader) rowss
        ++ [Logged 5; OutputWritten "tempdir" (concat rowss)].
Proof.
  intros Hok. destruct (main_Ok_samples Hok) as (params & xss & Hdev & Hck & Hxss).
  destruct (main_completed params xss Hdev Hck Hxss) as (st & Hmain & _).
  exists params, (sample_rows params <$> xss). split; [done|]. split.
  - apply Forall2_fmap_r. eapply Forall2_impl; [exact Hxss|].
    intros indices xs Hxs. apply Forall2_fmap_r. eapply Forall2_impl; [exact Hxs|].
    intros i x Hx. by exists x, (predicted_class params (voxels x.1.1)).
  - by rewrite Hmain.
Qed.

(** X9. When the script runs to completion, the network is left on the
    first CUDA device, in evaluation mode, with one input channel and two
    output channels, and with the parameters of the checkpoint; and the
    saver holds the rows it wrote. *)
Theorem network_after_a_completed_run :
  is_Ok (main empty_store).1 →
  ∃ params evs rows,
    checkpoint_net = Ok params
    ∧ modules (main empty_store).2 = [NnModule params (cuda 0) false 1 2]
    ∧ savers (main empty_store).2 = [rows]
    ∧ trace (main empty_store).2 = evs ++ [OutputWritten "tempdir" rows].
Proof.
  intros Hok. destruct (main_Ok_samples Hok) as (params & xss & Hdev & Hck & Hxss).
  destruct (main_completed params xss Hdev Hck Hxss) as (st & Hmain & _).
  rewrite Hmain. cbn [snd modules savers trace].
  exists params,
    ([ModuleMoved 0 (cuda 0); StateDictLoaded checkpoint_path "net" 0]
     ++ iterations_events params 0 (DataLoader_iter val_loader) (sample_rows params <$> xss)
     ++ [Logged 5]),
    (concat (sample_rows params <$> xss)).
  split; [done|]. split; [done|]. split; [done|].
  by rewrite <- !app_assoc.
Qed.

(** X10. The batches of a loader, for every number of samples and every
    positive batch size: put one after the other they are the sample
    indices from 0 on, each once and in order; no batch is empty and none
    is longer than the batch size; and there are as many batches as it
    takes, the number of samples divided by the batch size, rounded up. *)
Theorem batches_partition_the_samples (n batch_size : nat) :
  0 < batch_size →
  concat (batch_indices n batch_size) = seq 0 n
  ∧ Forall (λ indices, 0 < length indices ≤ batch_size) (batch_indices n batch_size)
  ∧ n ≤ length (batch_indices n batch_size) * batch_size < n + batch_size.
Proof.
  intros Hb. unfold batch_indices.
  pose proof (Nat.Div0.mul_div_le (n + batch_size - 1) batch_size) as Hle.
  pose proof (Nat.mul_succ_div_gt (n + batch_size - 1) batch_size) as Hgt.
  split; [|split].
  - rewrite batch_indices_concat_prefix by done. f_equal. nia.
  - apply Forall_fmap, Forall_forall. intros j Hj.
    apply elem_of_seq in Hj. cbn. rewrite length_seq. nia.
  - rewrite length_fmap, length_seq. nia.
Qed.

End Pipeline.

(** * The script run in small worlds: with and without the device, the
    checkpoint and an image file *)

Example toy_run_completes : is_Ok (main (toy_world 1) empty_store).1.
Proof. vm_compute. exact I. Qed.

Example toy_run_output :
  last (trace (main (toy_world 1) empty_store).2)
  = Some (OutputWritten "tempdir"
            (zip ((λ path, MetaData path [4; 5; 6]) <$> images)
                 (SavedClass <$> [0; 1; 1; 0; 0; 0; 1; 1; 0; 0]%Z))).
Proof. vm_compute. reflexivity. Qed.

Example toy_run_without_device :
  main (toy_world 0) empty_store
  = (Raise (RuntimeError "device is not available"),
     MkStore [NnModule 0 cpu true 1 2] [] []).
Proof. vm_compute. reflexivity. Qed.

(** The shape claimed for the transform chain, on a volume of shape 4x5x6. *)
Lemma val_transforms_shape_witness :
  length (shape (NdArray [4; 5; 6] 0)) = 3
  ∧ ∃ out, val_transforms (toy_world 1) (NdArray [4; 5; 6] 0) = Ok out
           ∧ shape out = [1; 96; 96; 96].
Proof.
  split; [reflexivity|].
  apply (val_transforms_shape (toy_world 1) (NdArray [4; 5; 6] 0)). reflexivity.
Defined.

(** The failure claimed for a missing device, in the world without devices. *)
Lemma unavailable_device_witness :
  device_available (toy_world 0) device = false
  ∧ trace (main (toy_world 0) empty_store).2 = [].
Proof.
  split; [reflexivity|].
  apply (unavailable_device_fails_before_any_batch (toy_world 0)). reflexivity.
Defined.

(** The output claimed for a run that completes, in the world with one
    device. *)
Lemma one_output_row_per_sample_witness :
  is_Ok (main (toy_world 1) empty_store).1
  ∧ ∃ evs rows,
      trace (main (toy_world 1) empty_store).2 = evs ++ [OutputWritten "tempdir" rows]
      ∧ length rows = 10.
Proof.
  split; [vm_compute; exact I|].
  destruct (one_output_row_per_sample (toy_world 1))
    as (evs & rows & Htr & _ & Hrows & _).
  - vm_compute. exact I.
  - exists evs, rows. split; [exact Htr|].
    apply Forall2_length in Hrows. symmetry. exact Hrows.
Defined.

Lemma toy_world_ready : world_ready (toy_world 1).
Proof.
  split; [reflexivity|]. split; [vm_compute; exact I|].
  intros path _. eexists. split; reflexivity.
Defined.

(** The completion claimed for a world that has what the script needs, in
    the world with one device. *)
Lemma script_completes_witness :
  world_ready (toy_world 1) ∧ is_Ok (main (toy_world 1) empty_store).1.
Proof.
  split; [exact toy_world_ready|].
  apply (script_completes (toy_world 1) toy_world_ready).
Defined.

(** The rows claimed for a run that completes, in the world with one
    device. *)
Lemma output_rows_are_predictions_of_the_images_witness :
  is_Ok (main (toy_world 1) empty_store).1
  ∧ ∃ params evs rows,
      checkpoint_net (toy_world 1) = Ok params
      ∧ trace (main (toy_world 1) empty_store).2 = evs ++ [OutputWritten "tempdir" rows]
      ∧ length rows = 10.
Proof.
  split; [vm_compute; exact I|].
  destruct (output_rows_are_predictions_of_the_images (toy_world 1))
    as (params & evs & rows & Hck & Htr & Hrows).
  - vm_compute. exact I.
  - exists params, evs, rows. split; [exact Hck|]. split; [exact Htr|].
    apply Forall2_length in Hrows. symmetry. exact Hrows.
Defined.

(** The script in the world in which the fifth image file is missing: the
    first two batches are processed, and nothing is written. *)
Example toy_run_with_missing_file :
  let r := main (toy_world_without
                   ["/workspace/data/medical/ixi/IXI-T1/IXI409-Guys-0960-T1.nii.gz"] true)
                empty_store in
  r.1 = Raise (FileNotFoundError
                 "/workspace/data/medical/ixi/IXI-T1/IXI409-Guys-0960-T1.nii.gz")
  ∧ fetched (trace r.2) = [[0; 1]; [2; 3]]
  ∧ (snd <$> default [] (savers r.2 !! 0)) = SavedClass <$> [0; 1; 1; 0]%Z.
Proof. vm_compute. done. Qed.

(** The accuracy of the run in the world with one device: six of the ten
    predicted classes are the labels. *)
Example toy_run_accuracy :
  (λ st, (iteration st, metrics st !! "Accuracy"%string))
    <$> (main (toy_world 1) empty_store).1
  = Ok (5, Some (6, 10)).
Proof. vm_compute. reflexivity. Qed.

(** The stop claimed for a missing checkpoint, in the world without the
    checkpoint file. *)
Lemma missing_checkpoint_witness :
  device_available (toy_world_without [] false) device = true
  ∧ raises (main (toy_world_without [] false) empty_store).1
  ∧ trace (main (toy_world_without [] false) empty_store).2 = [ModuleMoved 0 (cuda 0)].
Proof.
  split; [reflexivity|].
  destruct (missing_checkpoint_stops_before_any_batch (toy_world_without [] false))
    as [Hraises Hstore].
  - reflexivity.
  - left. reflexivity.
  - split; [exact Hraises|]. rewrite Hstore. reflexivity.
Defined.

(** The stop claimed for a sample that cannot be loaded, in the world in
    which the fifth image file is missing. *)
Lemma first_failing_sample_witness :
  NiftiDataset_getitem
    (toy_world_without ["/workspace/data/medical/ixi/IXI-T1/IXI409-Guys-0960-T1.nii.gz"] true)
    (val_ds
       (toy_world_without ["/workspace/data/medical/ixi/IXI-T1/IXI409-Guys-0960-T1.nii.gz"] true))
    4
  = Raise (FileNotFoundError "/workspace/data/medical/ixi/IXI-T1/IXI409-Guys-0960-T1.nii.gz")
  ∧ (main (toy_world_without
             ["/workspace/data/medical/ixi/IXI-T1/IXI409-Guys-0960-T1.nii.gz"] true)
          empty_store).1
    = Raise (FileNotFoundError "/workspace/data/medical/ixi/IXI-T1/IXI409-Guys-0960-T1.nii.gz").
Proof.
  split; [vm_compute; reflexivity|].
  apply (first_failing_sample_stops_the_run
           (toy_world_without
              ["/workspace/data/medical/ixi/IXI-T1/IXI409-Guys-0960-T1.nii.gz"] true)
           4 _ 7).
  - reflexivity.
  - vm_compute. reflexivity.
  - lia.
  - intros j Hj. do 4 (destruct j as [|j]; [vm_compute; exact I|]). lia.
  - vm_compute. reflexivity.
Defined.

(** The accuracy claimed for a run that completes, in the world with one
    device. *)
Lemma accuracy_of_a_completed_run_witness :
  is_Ok (main (toy_world 1) empty_store).1
  ∧ ∃ st, (main (toy_world 1) empty_store).1 = Ok st ∧ iteration st = 5.
Proof.
  split; [vm_compute; exact I|].
  destruct (accuracy_of_a_completed_run (toy_world 1))
    as (st & evs & metas & classes & Hst & _ & _ & _ & Hit & _).
  - vm_compute. exact I.
  - exists st. split; [exact Hst | exact Hit].
Defined.

(** The events claimed for a run that completes, in the world with one
    device. *)
Lemma events_of_a_completed_run_witness :
  is_Ok (main (toy_world 1) empty_store).1
  ∧ ∃ params rowss,
      checkpoint_net (toy_world 1) = Ok params
      ∧ trace (main (toy_world 1) empty_store).2
        = [ModuleMoved 0 (cuda 0); StateDictLoaded "./runs/net_checkpoint_40.pth" "net" 0]
          ++ iterations_events params 0 [[0; 1]; [2; 3]; [4; 5]; [6; 7]; [8; 9]] rowss
          ++ [Logged 5; OutputWritten "tempdir" (concat rowss)].
Proof.
  split; [vm_compute; exact I|].
  destruct (events_of_a_completed_run (toy_world 1)) as (params & rowss & Hck & _ & Htr).
  - vm_compute. exact I.
  - exists params, rowss. split; [exact Hck | exact Htr].
Defined.

(** The network claimed for a run that completes, in the world with one
    device: it holds the parameters 7 of the checkpoint. *)
Lemma network_after_a_completed_run_witness :
  is_Ok (main (toy_world 1) empty_store).1
  ∧ modules (main (toy_world 1) empty_store).2 = [NnModule 7 (cuda 0) false 1 2].
Proof.
  split; [vm_compute; exact I|].
  destruct (network_after_a_completed_run (toy_world 1))
    as (params & evs & rows & Hck & Hmod & _).
  - vm_compute. exact I.
  - rewrite Hmod. vm_compute in Hck. by injection Hck as <-.
Defined.

(** The batches claimed for a loader, for ten samples in batches of two. *)
Lemma batches_partition_the_samples_witness :
  0 < 2 ∧ concat (batch_indices 10 2) = seq 0 10.
Proof.
  split; [lia|]. apply (batches_partition_the_samples 10 2). lia.
Defined.

(** The single load claimed for a world with the device and the checkpoint
    entry, in the world with one device: the parameters are 7. *)
Lemma checkpoint_loaded_once_witness :
  device_available (toy_world 1) device = true
  ∧ ∃ evs,
      trace (main (toy_world 1) empty_store).2
      = [ModuleMoved 0 (cuda 0); StateDictLoaded "./runs/net_checkpoint_40.pth" "net" 0]
        ++ evs.
Proof.
  split; [reflexivity|].
  destruct (checkpoint_loaded_once_before_evaluation (toy_world 1) 7)
    as (evs & m & Htr & _).
  - reflexivity.
  - vm_compute. reflexivity.
  - exists evs. exact Htr.
Defined.
